(** * flux2.c — the command-line driver [main.c]

    A shallow embedding of [main.c] (the FLUX.2 klein CLI) and the proofs of
    the properties its specification states about it.

    Platform assumptions, fixed once for the whole development:
    - LP64 data model compiled with GCC or Clang: [int] is 32 bits, [long],
      [long long], [int64_t] and [time_t] are signed 64 bits, [size_t] is
      unsigned 64 bits; a conversion to a signed type that does not fit
      wraps modulo 2^N;
    - the C library is glibc: [atoi] is [(int) strtol (s, NULL, 10)],
      [printf ("%s", NULL)] writes [(null)], [malloc] returns a non-null
      pointer (also for size 0) and memory is never exhausted;
    - [USE_METAL] is not defined;
    - [getopt_long] is a collaborator: a run is given the sequence of
      options it returns, in order.  Its own diagnostics are not recorded.

    Everything the program does to the outside world is recorded, in order,
    as a list of [event]s; everything the outside world answers comes from an
    oracle record [world]. *)

From Stdlib Require Import ZArith List String Ascii Bool Lia QArith DecimalString.
Import ListNotations.
Local Open Scope string_scope.
Local Open Scope Z_scope.

(* ====================================================================== *)
(** * C integers *)

Module CInt.

Definition INT_MAX : Z := 2147483647.
Definition INT_MIN : Z := -2147483648.
Definition LONG_MAX : Z := 9223372036854775807.
Definition LONG_MIN : Z := -9223372036854775808.

(** Conversion to a signed type of [bits] bits: reduction modulo
    [2^bits] into [-2^(bits-1) .. 2^(bits-1)-1]. *)
Definition wrap_signed (bits z : Z) : Z :=
  (z + 2 ^ (bits - 1)) mod 2 ^ bits - 2 ^ (bits - 1).

Definition to_int (z : Z) : Z := wrap_signed 32 z.
Definition to_size_t (z : Z) : Z := z mod 2 ^ 64.

Definition in_int (z : Z) : Prop := INT_MIN <= z <= INT_MAX.

(** [sizeof(float)], a [size_t]. *)
Definition sizeof_float : Z := 4.

End CInt.
Import CInt.

(* ====================================================================== *)
(** * C library: text *)

Module CLib.

Definition newline : ascii := ascii_of_nat 10.
Definition dquote : string := String (ascii_of_nat 34) EmptyString.

(** Floating-point values.  Finite values are carried as the rational
    they denote; [(float) atof (s)] itself is an oracle of the [world]. *)
Inductive fpval :=
| FNum (q : Q)
| FInf (negative : bool)
| FNaN.

Definition Qltb (a b : Q) : bool := negb (Qle_bool b a).

(** The C operator [<] on floating-point operands: false when either
    operand is a NaN. *)
Definition fp_ltb (x y : fpval) : bool :=
  match x, y with
  | FNaN, _ | _, FNaN => false
  | FNum a, FNum b => Qltb a b
  | FNum _, FInf neg => negb neg
  | FInf neg, FNum _ => neg
  | FInf n1, FInf n2 => n1 && negb n2
  end.

Definition string_of_Z (z : Z) : string := NilZero.string_of_int (Z.to_int z).

Fixpoint zero_pad (width : nat) (s : string) : string :=
  match width with
  | O => s
  | S w => if (String.length s <? width)%nat then zero_pad w (String "0" s) else s
  end.

(** [%.Nf]: the value rounded to [prec] decimals, ties to even. *)
Definition fmt_fixed (prec : nat) (f : fpval) : string :=
  match f with
  | FNaN => "nan"
  | FInf neg => if neg then "-inf" else "inf"
  | FNum q =>
      let scale := 10 ^ Z.of_nat prec in
      let a := Z.abs (Qnum q) * scale in
      let d := Z.pos (Qden q) in
      let fl := a / d in
      let r := a mod d in
      let n := if (d <? 2 * r) || ((d =? 2 * r) && Z.odd fl) then fl + 1 else fl in
      let body :=
        match prec with
        | O => string_of_Z n
        | _ => string_of_Z (n / scale) ++ "." ++ zero_pad prec (string_of_Z (n mod scale))
        end in
      if Qnum q <? 0 then "-" ++ body else body
  end.

(** Arguments of a [printf]-family call. *)
Inductive printf_arg :=
| Int (z : Z)                 (* int, long long *)
| Str (s : option string)     (* char *, [None] is NULL *)
| Dbl (f : fpval).            (* double *)

Definition conv_d (a : option printf_arg) : string :=
  match a with Some (Int z) => string_of_Z z | _ => EmptyString end.
Definition conv_s (a : option printf_arg) : string :=
  match a with Some (Str (Some s)) => s | Some (Str None) => "(null)" | _ => EmptyString end.
Definition conv_f (prec : nat) (a : option printf_arg) : string :=
  match a with Some (Dbl f) => fmt_fixed prec f | _ => EmptyString end.

Inductive scan := Lit | Esc | Pct | Prec (n : nat).

Definition digit_of (c : ascii) : option nat :=
  let n := nat_of_ascii c in
  if ((48 <=? n) && (n <=? 57))%nat then Some (n - 48)%nat else None.

(** The text a [printf]-family call writes.  [fmt] is the format as it is
    spelled in the C source: the escape [\n] stands for a line feed; the
    conversions used by [main.c] are [%d], [%lld], [%s], [%.1f], [%.2f]. *)
Fixpoint format (st : scan) (fmt : string) (args : list printf_arg) : string :=
  match fmt with
  | EmptyString => EmptyString
  | String c rest =>
      match st with
      | Lit =>
          if (c =? "%")%char then format Pct rest args
          else if (c =? "\")%char then format Esc rest args
          else String c (format Lit rest args)
      | Esc =>
          String (if (c =? "n")%char then newline else c) (format Lit rest args)
      | Pct =>
          if (c =? "l")%char then format Pct rest args
          else if (c =? ".")%char then format (Prec 0) rest args
          else if (c =? "d")%char then conv_d (hd_error args) ++ format Lit rest (tl args)
          else if (c =? "s")%char then conv_s (hd_error args) ++ format Lit rest (tl args)
          else String c (format Lit rest args)
      | Prec n =>
          match digit_of c with
          | Some d => format (Prec (10 * n + d)) rest args
          | None =>
              if (c =? "f")%char then conv_f n (hd_error args) ++ format Lit rest (tl args)
              else String c (format Lit rest args)
          end
      end
  end.

Definition sprintf (fmt : string) (args : list printf_arg) : string :=
  format Lit fmt args.

(** Number of line feeds in a text. *)
Fixpoint line_breaks (s : string) : nat :=
  match s with
  | EmptyString => O
  | String c rest => ((if (c =? newline)%char then 1 else 0) + line_breaks rest)%nat
  end.

(** ** [strtol], [atoi], [atoll] *)

Definition isspace (c : ascii) : bool :=
  let n := nat_of_ascii c in ((n =? 32) || ((9 <=? n) && (n <=? 13)))%nat.

Fixpoint skip_space (s : string) : string :=
  match s with
  | String c rest => if isspace c then skip_space rest else s
  | EmptyString => s
  end.

Fixpoint digits_value (acc : Z) (s : string) : Z :=
  match s with
  | String c rest =>
      match digit_of c with
      | Some d => digits_value (10 * acc + Z.of_nat d) rest
      | None => acc
      end
  | EmptyString => acc
  end.

Definition clamp_long (z : Z) : Z := Z.max LONG_MIN (Z.min LONG_MAX z).

Definition strtol (s : string) : Z :=
  match skip_space s with
  | String c rest =>
      if (c =? "-")%char then clamp_long (- digits_value 0 rest)
      else if (c =? "+")%char then clamp_long (digits_value 0 rest)
      else clamp_long (digits_value 0 (String c rest))
  | EmptyString => 0
  end.

Definition atoi (s : string) : Z := to_int (strtol s).
Definition atoll (s : string) : Z := strtol s.

End CLib.
Import CLib.


(* ====================================================================== *)
(** * The engine's interface ([flux.h]) *)

Module Flux.

(** Modelled from the spec: [flux_params] is declared in [flux.h], which
    is not among the sources.  The fields are those [main] initialises
    (GenerationParameters of the specification), with the types [main]
    uses them at: [int], [float] and [int64_t]. *)
Record flux_params := {
  width : Z;
  height : Z;
  num_steps : Z;
  guidance_scale : fpval;
  seed : Z;
  strength : fpval
}.

(** Modelled from the spec: [flux_image] is declared in [flux.h]; [main]
    reads its [width], [height] and [channels]. *)
Record flux_image := {
  img_width : Z;
  img_height : Z;
  img_channels : Z
}.

(** Modelled from the spec: [flux_ctx] is an opaque handle; the only thing
    [main] asks of it is [flux_model_info]. *)
Record flux_ctx := { flux_model_info : string }.

(** Modelled from the spec: the substep kinds of [flux.h]
    (DoubleBlock, SingleBlock, FinalLayer). *)
Inductive flux_substep_type_t :=
| FLUX_SUBSTEP_DOUBLE_BLOCK
| FLUX_SUBSTEP_SINGLE_BLOCK
| FLUX_SUBSTEP_FINAL_LAYER.

(** Modelled from the spec: the text dimension is a fixed engine constant
    of [flux.h]; [main] annotates it with its value, 7680. *)
Definition FLUX_TEXT_DIM : Z := 7680.

(** A block of memory obtained from [malloc] and filled from a file. *)
Record buffer := { buf_file : string; buf_bytes : Z }.

(** The four generation entry points, with their arguments. *)
Inductive gen_call :=
| flux_img2img (ctx : flux_ctx) (prompt : option string)
               (input : flux_image) (params : flux_params)
| flux_generate_with_embeddings_and_noise
    (ctx : flux_ctx) (text_emb : buffer) (text_seq : Z)
    (noise : buffer) (noise_size : Z) (params : flux_params)
| flux_generate_with_embeddings
    (ctx : flux_ctx) (text_emb : buffer) (text_seq : Z) (params : flux_params)
| flux_generate (ctx : flux_ctx) (prompt : option string) (params : flux_params).

(** What the engine reports while a generation call runs. *)
Inductive progress_event :=
| Step (step total : Z)
| Substep (type : flux_substep_type_t) (index total : Z).

End Flux.
Import Flux.

(* ====================================================================== *)
(** * The outside world *)

(** A file that [fopen] opened: the offset [ftell] reports at its end, and
    the number of bytes [fread] delivers when asked for that many. *)
Record file := { file_size : Z; file_read : Z }.

Inductive clock_site := Load_start | Load_end | Gen_start | Gen_end.

Definition CLOCKS_PER_SEC : positive := 1000000.

Record world := {
  (** [(float) atof (s)] *)
  w_atof : string -> fpval;
  (** [flux_load_dir (dir)]; [None] is NULL *)
  w_load_dir : string -> option flux_ctx;
  (** [flux_get_error ()] *)
  w_get_error : string;
  (** [time (NULL)] *)
  w_time : Z;
  (** [clock ()] at each of its four call sites *)
  w_clock : clock_site -> Z;
  (** [flux_image_load (path)] *)
  w_image_load : string -> option flux_image;
  (** [fopen (path, "rb")] *)
  w_fopen : string -> option file;
  (** a generation call under the seed last given to [flux_set_seed]:
      the progress the engine reports and the image it returns *)
  w_engine : option Z -> gen_call -> list progress_event * option flux_image;
  (** [flux_image_save (img, path)] *)
  w_image_save : flux_image -> string -> Z
}.

(** What the program does, in order. *)
Inductive event :=
| Stderr (text : string)
| Flush_stderr
| Stdout (text : string)
| Call_flux_load_dir (dir : string)
| Call_flux_set_seed (s : Z)
| Call_flux_image_load (path : string)
| Call_fopen (path : string)
| Call_malloc (var : string) (size : Z)
| Call_fread (path : string) (size : Z)
| Call_fclose (path : string)
| Call_free (var : string)
| Call_generation (c : gen_call)
| Call_flux_image_free (img : flux_image)
| Call_flux_image_save (img : flux_image) (path : string)
| Call_flux_free (ctx : flux_ctx).

(** Code pointers that can be stored in the engine's callback variables. *)
Inductive step_fn := cli_step_callback_ptr.
Inductive substep_fn := cli_substep_callback_ptr.

(** Process-wide variables: [cli_current_step] of [main.c], the engine's
    [flux_step_callback] and [flux_substep_callback] ([None] is NULL), and
    the seed the engine holds. *)
Record globals := {
  cli_current_step : Z;
  flux_step_callback : option step_fn;
  flux_substep_callback : option substep_fn;
  engine_seed : option Z
}.

Definition initial_globals : globals :=
  {| cli_current_step := 0;
     flux_step_callback := None;
     flux_substep_callback := None;
     engine_seed := None |}.

(* ====================================================================== *)
(** * Statements: a state, trace and early-return monad *)

Inductive result (A : Type) :=
| Next (a : A)            (* fall through to the next statement *)
| Return (status : Z).    (* [return status;] from [main] *)
Arguments Next {A} a.
Arguments Return {A} status.

Definition M (A : Type) : Type := globals -> list event * globals * result A.

Definition ret {A} (a : A) : M A := fun g => ([], g, Next a).

Definition bind {A B} (m : M A) (k : A -> M B) : M B := fun g =>
  match m g with
  | (t1, g1, Next a) =>
      match k a g1 with
      | (t2, g2, r) => ((t1 ++ t2)%list, g2, r)
      end
  | (t1, g1, Return c) => (t1, g1, Return c)
  end.

Declare Scope prog_scope.
Delimit Scope prog_scope with prog.
Notation "x <- m ;; k" := (bind m (fun x => k))
  (at level 61, m at next level, right associativity) : prog_scope.
Notation "m ;; k" := (bind m (fun _ => k))
  (at level 61, right associativity) : prog_scope.
Local Open Scope prog_scope.

Definition emit (e : event) : M unit := fun g => ([e], g, Next tt).
Definition return_ {A} (status : Z) : M A := fun g => ([], g, Return status).
Definition get_globals : M globals := fun g => ([], g, Next g).
Definition put_globals (g' : globals) : M unit := fun _ => ([], g', Next tt).
Definition when (c : bool) (body : M unit) : M unit := if c then body else ret tt.

Definition fprintf_stderr (fmt : string) (args : list printf_arg) : M unit :=
  emit (Stderr (sprintf fmt args)).
Definition fputc_stderr (c : ascii) : M unit := emit (Stderr (String c EmptyString)).
Definition fflush_stderr : M unit := emit Flush_stderr.
Definition printf (fmt : string) (args : list printf_arg) : M unit :=
  emit (Stdout (sprintf fmt args)).

Definition set_cli_current_step (v : Z) : M unit :=
  g <- get_globals ;;
  put_globals {| cli_current_step := v;
                 flux_step_callback := flux_step_callback g;
                 flux_substep_callback := flux_substep_callback g;
                 engine_seed := engine_seed g |}.

Definition set_callbacks (s : option step_fn) (ss : option substep_fn) : M unit :=
  g <- get_globals ;;
  put_globals {| cli_current_step := cli_current_step g;
                 flux_step_callback := s;
                 flux_substep_callback := ss;
                 engine_seed := engine_seed g |}.

Definition flux_set_seed (s : Z) : M unit :=
  emit (Call_flux_set_seed s) ;;
  g <- get_globals ;;
  put_globals {| cli_current_step := cli_current_step g;
                 flux_step_callback := flux_step_callback g;
                 flux_substep_callback := flux_substep_callback g;
                 engine_seed := Some s |}.

(* ====================================================================== *)
(** * CLI progress callbacks ([main.c], lines 37-90) *)

(** [cli_step_callback]: called at the start of each sampling step. *)
Definition cli_step_callback (step total : Z) : M unit :=
  g <- get_globals ;;
  when (0 <? cli_current_step g) (fprintf_stderr "\n" []) ;;
  set_cli_current_step step ;;
  fprintf_stderr "Step %d/%d " [Int step; Int total] ;;
  fflush_stderr.

(** [cli_substep_callback]: called for each substep within the transformer
    forward pass.  [index + 1] is computed in [int]. *)
Definition cli_substep_callback (type : flux_substep_type_t) (index total : Z) : M unit :=
  match type with
  | FLUX_SUBSTEP_DOUBLE_BLOCK => fputc_stderr "d"
  | FLUX_SUBSTEP_SINGLE_BLOCK =>
      when (Z.rem (to_int (index + 1)) 5 =? 0) (fputc_stderr "s")
  | FLUX_SUBSTEP_FINAL_LAYER => fputc_stderr "F"
  end ;;
  fflush_stderr.

(** [cli_setup_progress] *)
Definition cli_setup_progress : M unit :=
  set_cli_current_step 0 ;;
  set_callbacks (Some cli_step_callback_ptr) (Some cli_substep_callback_ptr).

(** [cli_finish_progress] *)
Definition cli_finish_progress : M unit :=
  g <- get_globals ;;
  when (0 <? cli_current_step g)
       (fprintf_stderr "\n" [] ;; set_cli_current_step 0) ;;
  set_callbacks None None.

(** Modelled from the spec: the engine's side of the callback protocol
    ([flux.c] is not among the sources).  Each progress event is handed,
    synchronously and in order, to the callback registered for its kind;
    with no callback registered the event is dropped. *)
Definition deliver_event (e : progress_event) : M unit :=
  g <- get_globals ;;
  match e with
  | Step step total =>
      match flux_step_callback g with
      | Some cli_step_callback_ptr => cli_step_callback step total
      | None => ret tt
      end
  | Substep type index total =>
      match flux_substep_callback g with
      | Some cli_substep_callback_ptr => cli_substep_callback type index total
      | None => ret tt
      end
  end.

Fixpoint deliver (evs : list progress_event) : M unit :=
  match evs with
  | [] => ret tt
  | e :: rest => deliver_event e ;; deliver rest
  end.

(** A blocking generation call: the call itself, then whatever the
    callbacks do with the engine's progress events, then its result. *)
Definition generation (w : world) (c : gen_call) : M (option flux_image) :=
  emit (Call_generation c) ;;
  g <- get_globals ;;
  deliver (fst (w_engine w (engine_seed g) c)) ;;
  ret (snd (w_engine w (engine_seed g) c)).

(* ====================================================================== *)
(** * [main] ([main.c], lines 92-493) *)

Definition DEFAULT_WIDTH : Z := 256.
Definition DEFAULT_HEIGHT : Z := 256.
Definition DEFAULT_STEPS : Z := 4.
Definition DEFAULT_GUIDANCE : fpval := FNum 1.
Definition DEFAULT_STRENGTH : fpval := FNum (3 # 4).

Definition print_usage (prog : string) : M unit :=
  fprintf_stderr "FLUX.2 klein 4B - Pure C Image Generation\n\n" [] ;;
  fprintf_stderr "Usage: %s [options]\n\n" [Str (Some prog)] ;;
  fprintf_stderr "Required:\n" [] ;;
  fprintf_stderr "  -d, --dir PATH        Path to model directory (safetensors)\n" [] ;;
  fprintf_stderr "  -p, --prompt TEXT     Text prompt for generation\n" [] ;;
  fprintf_stderr "  -o, --output PATH     Output image path (.png, .ppm)\n\n" [] ;;
  fprintf_stderr "Generation options:\n" [] ;;
  fprintf_stderr "  -W, --width N         Output width (default: %d)\n" [Int DEFAULT_WIDTH] ;;
  fprintf_stderr "  -H, --height N        Output height (default: %d)\n" [Int DEFAULT_HEIGHT] ;;
  fprintf_stderr "  -s, --steps N         Sampling steps (default: %d)\n" [Int DEFAULT_STEPS] ;;
  fprintf_stderr "  -g, --guidance N      Guidance scale (default: %.1f)\n" [Dbl DEFAULT_GUIDANCE] ;;
  fprintf_stderr "  -S, --seed N          Random seed (-1 for random)\n\n" [] ;;
  fprintf_stderr "Image-to-image options:\n" [] ;;
  fprintf_stderr "  -i, --input PATH      Input image for img2img\n" [] ;;
  fprintf_stderr "  -t, --strength N      Strength 0.0-1.0 (default: %.2f)\n\n" [Dbl DEFAULT_STRENGTH] ;;
  fprintf_stderr "Other options:\n" [] ;;
  fprintf_stderr "  -e, --embeddings PATH Load text embeddings from binary file\n" [] ;;
  fprintf_stderr "  -v, --verbose         Enable verbose output\n" [] ;;
  fprintf_stderr "  -h, --help            Show this help\n\n" [] ;;
  fprintf_stderr "Examples:\n" [] ;;
  fprintf_stderr ("  %s -d model/ -p " ++ dquote ++ "a cat on a rainbow" ++ dquote
                  ++ " -o cat.png\n") [Str (Some prog)] ;;
  fprintf_stderr ("  %s -d model/ -p " ++ dquote ++ "oil painting style" ++ dquote
                  ++ " -i photo.png -o art.png -t 0.7\n") [Str (Some prog)].

Definition print_version : M unit :=
  fprintf_stderr "FLUX.2 klein 4B Inference Engine\n" [] ;;
  fprintf_stderr "Version: 1.0.0\n" [] ;;
  fprintf_stderr "Pure C implementation, no external dependencies\n" [].

(** What [getopt_long] returns for one option: the option character with
    its [optarg], or ['?'] for anything it does not recognise. *)
Inductive getopt_result :=
| opt_d (optarg : string)
| opt_p (optarg : string)
| opt_o (optarg : string)
| opt_W (optarg : string)
| opt_H (optarg : string)
| opt_s (optarg : string)
| opt_g (optarg : string)
| opt_S (optarg : string)
| opt_i (optarg : string)
| opt_t (optarg : string)
| opt_e (optarg : string)
| opt_n (optarg : string)
| opt_v
| opt_h
| opt_V
| opt_unrecognised.

(** The local variables of [main] that option parsing fills. *)
Record locals := {
  model_dir : option string;
  prompt : option string;
  output_path : option string;
  input_path : option string;
  embeddings_path : option string;
  noise_path : option string;
  params : flux_params;
  verbose : bool;
  width_set : bool;
  height_set : bool
}.

Definition initial_locals : locals :=
  {| model_dir := None; prompt := None; output_path := None;
     input_path := None; embeddings_path := None; noise_path := None;
     params := {| width := DEFAULT_WIDTH; height := DEFAULT_HEIGHT;
                  num_steps := DEFAULT_STEPS; guidance_scale := DEFAULT_GUIDANCE;
                  seed := -1; strength := DEFAULT_STRENGTH |};
     verbose := false; width_set := false; height_set := false |}.

(** Assignments to the fields of [params]. *)
Definition set_width (p : flux_params) (v : Z) : flux_params :=
  {| width := v; height := height p; num_steps := num_steps p;
     guidance_scale := guidance_scale p; seed := seed p; strength := strength p |}.
Definition set_height (p : flux_params) (v : Z) : flux_params :=
  {| width := width p; height := v; num_steps := num_steps p;
     guidance_scale := guidance_scale p; seed := seed p; strength := strength p |}.
Definition set_num_steps (p : flux_params) (v : Z) : flux_params :=
  {| width := width p; height := height p; num_steps := v;
     guidance_scale := guidance_scale p; seed := seed p; strength := strength p |}.
Definition set_guidance_scale (p : flux_params) (v : fpval) : flux_params :=
  {| width := width p; height := height p; num_steps := num_steps p;
     guidance_scale := v; seed := seed p; strength := strength p |}.
Definition set_seed (p : flux_params) (v : Z) : flux_params :=
  {| width := width p; height := height p; num_steps := num_steps p;
     guidance_scale := guidance_scale p; seed := v; strength := strength p |}.
Definition set_strength (p : flux_params) (v : fpval) : flux_params :=
  {| width := width p; height := height p; num_steps := num_steps p;
     guidance_scale := guidance_scale p; seed := seed p; strength := v |}.

(** The body of the option [switch] for the options that only assign. *)
Definition assign_option (w : world) (o : getopt_result) (l : locals) : locals :=
  let upd md pr op ip ep np pa vb ws hs :=
    {| model_dir := md; prompt := pr; output_path := op; input_path := ip;
       embeddings_path := ep; noise_path := np; params := pa; verbose := vb;
       width_set := ws; height_set := hs |} in
  let keep md pr op ip ep np := upd md pr op ip ep np (params l) (verbose l)
                                    (width_set l) (height_set l) in
  let with_params pa ws hs :=
    upd (model_dir l) (prompt l) (output_path l) (input_path l)
        (embeddings_path l) (noise_path l) pa (verbose l) ws hs in
  match o with
  | opt_d optarg => keep (Some optarg) (prompt l) (output_path l) (input_path l)
                         (embeddings_path l) (noise_path l)
  | opt_p optarg => keep (model_dir l) (Some optarg) (output_path l) (input_path l)
                         (embeddings_path l) (noise_path l)
  | opt_o optarg => keep (model_dir l) (prompt l) (Some optarg) (input_path l)
                         (embeddings_path l) (noise_path l)
  | opt_W optarg => with_params (set_width (params l) (atoi optarg)) true (height_set l)
  | opt_H optarg => with_params (set_height (params l) (atoi optarg)) (width_set l) true
  | opt_s optarg => with_params (set_num_steps (params l) (atoi optarg))
                                (width_set l) (height_set l)
  | opt_g optarg => with_params (set_guidance_scale (params l) (w_atof w optarg))
                                (width_set l) (height_set l)
  | opt_S optarg => with_params (set_seed (params l) (atoll optarg))
                                (width_set l) (height_set l)
  | opt_i optarg => keep (model_dir l) (prompt l) (output_path l) (Some optarg)
                         (embeddings_path l) (noise_path l)
  | opt_t optarg => with_params (set_strength (params l) (w_atof w optarg))
                                (width_set l) (height_set l)
  | opt_e optarg => keep (model_dir l) (prompt l) (output_path l) (input_path l)
                         (Some optarg) (noise_path l)
  | opt_n optarg => keep (model_dir l) (prompt l) (output_path l) (input_path l)
                         (embeddings_path l) (Some optarg)
  | opt_v => upd (model_dir l) (prompt l) (output_path l) (input_path l)
                 (embeddings_path l) (noise_path l) (params l) true
                 (width_set l) (height_set l)
  | opt_h | opt_V | opt_unrecognised => l
  end.

(** The option loop (lines 176-231): [opts] is what successive calls of
    [getopt_long] return before it returns -1. *)
Fixpoint parse_options (w : world) (prog : string) (opts : list getopt_result)
         (l : locals) : M locals :=
  match opts with
  | [] => ret l
  | o :: rest =>
      match o with
      | opt_h => print_usage prog ;; return_ 0
      | opt_V => print_version ;; return_ 0
      | opt_unrecognised => print_usage prog ;; return_ 1
      | _ => parse_options w prog rest (assign_option w o l)
      end
  end.

(** [!p] for a pointer [p]. *)
Definition is_null {A} (p : option A) : bool :=
  match p with None => true | Some _ => false end.

(** Lines 233-248: the required arguments.  Past them [model_dir] and
    [output_path] are known to be non-null. *)
Definition validate_required (prog : string) (l : locals) : M (string * string) :=
  match model_dir l with
  | None =>
      fprintf_stderr "Error: Model directory (-d) is required\n\n" [] ;;
      print_usage prog ;;
      return_ 1
  | Some dir =>
      when (is_null (prompt l) && is_null (embeddings_path l))
           (fprintf_stderr "Error: Prompt (-p) or embeddings file (-e) is required\n\n" [] ;;
            print_usage prog ;;
            return_ 1) ;;
      match output_path l with
      | None =>
          fprintf_stderr "Error: Output path is required (-o)\n\n" [] ;;
          print_usage prog ;;
          return_ 1
      | Some out => ret (dir, out)
      end
  end.

(** Lines 250-266: the parameter ranges. *)
Definition validate_params (p : flux_params) : M unit :=
  when ((width p <? 64) || (4096 <? width p))
       (fprintf_stderr "Error: Width must be between 64 and 4096\n" [] ;; return_ 1) ;;
  when ((height p <? 64) || (4096 <? height p))
       (fprintf_stderr "Error: Height must be between 64 and 4096\n" [] ;; return_ 1) ;;
  when ((num_steps p <? 1) || (100 <? num_steps p))
       (fprintf_stderr "Error: Steps must be between 1 and 100\n" [] ;; return_ 1) ;;
  when (fp_ltb (strength p) (FNum 0) || fp_ltb (FNum 1) (strength p))
       (fprintf_stderr "Error: Strength must be between 0.0 and 1.0\n" [] ;; return_ 1).

(** Lines 268-282: the verbose banner. *)
Definition print_settings (l : locals) (dir out : string) : M unit :=
  when (verbose l)
       (fprintf_stderr "FLUX.2 klein 4B Image Generator\n" [] ;;
        fprintf_stderr "================================\n" [] ;;
        fprintf_stderr "Model: %s\n" [Str (Some dir)] ;;
        fprintf_stderr "Prompt: %s\n" [Str (prompt l)] ;;
        fprintf_stderr "Output: %s\n" [Str (Some out)] ;;
        fprintf_stderr "Size: %dx%d\n" [Int (width (params l)); Int (height (params l))] ;;
        fprintf_stderr "Steps: %d\n" [Int (num_steps (params l))] ;;
        fprintf_stderr "Guidance: %.2f\n" [Dbl (guidance_scale (params l))] ;;
        match input_path l with
        | Some ip =>
            fprintf_stderr "Input: %s\n" [Str (Some ip)] ;;
            fprintf_stderr "Strength: %.2f\n" [Dbl (strength (params l))]
        | None => ret tt
        end ;;
        fprintf_stderr "\n" []).

(** [(double)(clock() - start) / CLOCKS_PER_SEC] between two call sites. *)
Definition seconds (w : world) (from to : clock_site) : fpval :=
  FNum (Qmake (w_clock w to - w_clock w from) CLOCKS_PER_SEC).

(** Lines 284-304: load the model; in verbose mode arm the progress
    callbacks. *)
Definition load_model (w : world) (l : locals) (dir : string) : M flux_ctx :=
  when (verbose l) (fprintf_stderr "Loading model...\n" []) ;;
  emit (Call_flux_load_dir dir) ;;
  match w_load_dir w dir with
  | None =>
      fprintf_stderr "Error: Failed to load model: %s\n" [Str (Some (w_get_error w))] ;;
      return_ 1
  | Some ctx =>
      when (verbose l)
           (fprintf_stderr "Model loaded in %.2f seconds\n"
                           [Dbl (seconds w Load_start Load_end)] ;;
            fprintf_stderr "Model info: %s\n\n" [Str (Some (flux_model_info ctx))] ;;
            cli_setup_progress) ;;
      ret ctx
  end.

(** Lines 306-316: resolve the seed, hand it to the engine, print it. *)
Definition resolve_seed (w : world) (p : flux_params) : M Z :=
  let actual_seed := if 0 <=? seed p then seed p else w_time w in
  flux_set_seed actual_seed ;;
  fprintf_stderr "Seed: %lld\n" [Int actual_seed] ;;
  ret actual_seed.

(** Lines 323-348: image-to-image mode. *)
Definition img2img_mode (w : world) (l : locals) (ctx : flux_ctx) (path : string)
  : M (option flux_image) :=
  when (verbose l) (fprintf_stderr "Loading input image...\n" []) ;;
  emit (Call_flux_image_load path) ;;
  match w_image_load w path with
  | None =>
      fprintf_stderr "Error: Failed to load input image: %s\n" [Str (Some path)] ;;
      emit (Call_flux_free ctx) ;;
      return_ 1
  | Some input =>
      (* Use input image dimensions if not explicitly set *)
      let p1 := if negb (width_set l) then set_width (params l) (img_width input)
                else params l in
      let p2 := if negb (height_set l) then set_height p1 (img_height input)
                else p1 in
      when (verbose l)
           (fprintf_stderr "Input: %dx%d, %d channels\n"
                           [Int (img_width input); Int (img_height input);
                            Int (img_channels input)] ;;
            fprintf_stderr "Output: %dx%d\n" [Int (width p2); Int (height p2)] ;;
            fprintf_stderr "Generating...\n" []) ;;
      output <- generation w (flux_img2img ctx (prompt l) input p2) ;;
      emit (Call_flux_image_free input) ;;
      ret output
  end.

(** Lines 363-370: the sequence length inferred from the file size,
    [int text_seq = file_size / (text_dim * sizeof(float))] with
    [long file_size] and [int text_dim]: the arithmetic is done in [size_t]
    and the quotient converted to [int]. *)
Definition text_seq_of (file_size : Z) : Z :=
  let text_dim := FLUX_TEXT_DIM in
  to_int (to_size_t file_size / to_size_t (to_size_t text_dim * sizeof_float)).

(** Line 407: [noise_size = noise_file_size / sizeof(float)]. *)
Definition noise_size_of (noise_file_size : Z) : Z :=
  to_int (to_size_t noise_file_size / sizeof_float).

(** [bytes / 1024.0] ([n = 1]) and [bytes / (1024.0 * 1024.0)] ([n = 2]). *)
Definition kib (n : Z) (bytes : Z) : fpval := FNum (Qmake bytes (Z.to_pos (1024 ^ n))).

(** Lines 387-423: load the noise file when [-n] was given.  The result is
    the [noise] pointer with [noise_size]; [None] is NULL. *)
Definition load_noise (w : world) (l : locals) (ctx : flux_ctx)
  : M (option (buffer * Z)) :=
  match noise_path l with
  | None => ret None
  | Some np =>
      when (verbose l) (fprintf_stderr "Loading noise from %s...\n" [Str (Some np)]) ;;
      emit (Call_fopen np) ;;
      match w_fopen w np with
      | None =>
          fprintf_stderr "Error: Failed to open noise file: %s\n" [Str (Some np)] ;;
          emit (Call_free "text_emb") ;;
          emit (Call_flux_free ctx) ;;
          return_ 1
      | Some noise_file =>
          let noise_file_size := file_size noise_file in
          let noise_size := noise_size_of noise_file_size in
          emit (Call_malloc "noise" (to_size_t noise_file_size)) ;;
          emit (Call_fread np (to_size_t noise_file_size)) ;;
          when (negb (file_read noise_file =? to_size_t noise_file_size))
               (fprintf_stderr "Error: Failed to read noise file\n" [] ;;
                emit (Call_free "noise") ;;
                emit (Call_free "text_emb") ;;
                emit (Call_fclose np) ;;
                emit (Call_flux_free ctx) ;;
                return_ 1) ;;
          emit (Call_fclose np) ;;
          when (verbose l)
               (fprintf_stderr "Noise: %d floats (%.2f KB)\n"
                               [Int noise_size; Dbl (kib 1 noise_file_size)]) ;;
          ret (Some ({| buf_file := np; buf_bytes := to_size_t noise_file_size |},
                     noise_size))
      end
  end.

(** Lines 349-437: text-to-image mode with external embeddings. *)
Definition embeddings_mode (w : world) (l : locals) (ctx : flux_ctx) (path : string)
  : M (option flux_image) :=
  when (verbose l) (fprintf_stderr "Loading embeddings from %s...\n" [Str (Some path)]) ;;
  emit (Call_fopen path) ;;
  match w_fopen w path with
  | None =>
      fprintf_stderr "Error: Failed to open embeddings file: %s\n" [Str (Some path)] ;;
      emit (Call_flux_free ctx) ;;
      return_ 1
  | Some emb_file =>
      let file_size := file_size emb_file in
      let text_dim := FLUX_TEXT_DIM in
      let text_seq := text_seq_of file_size in
      when (verbose l)
           (fprintf_stderr "Embeddings: %d tokens x %d dims (%.2f MB)\n"
                           [Int text_seq; Int text_dim; Dbl (kib 2 file_size)]) ;;
      emit (Call_malloc "text_emb" (to_size_t file_size)) ;;
      emit (Call_fread path (to_size_t file_size)) ;;
      when (negb (file_read emb_file =? to_size_t file_size))
           (fprintf_stderr "Error: Failed to read embeddings file\n" [] ;;
            emit (Call_free "text_emb") ;;
            emit (Call_fclose path) ;;
            emit (Call_flux_free ctx) ;;
            return_ 1) ;;
      emit (Call_fclose path) ;;
      let text_emb := {| buf_file := path; buf_bytes := to_size_t file_size |} in
      noise <- load_noise w l ctx ;;
      when (verbose l)
           (fprintf_stderr "Generating with external embeddings%s...\n"
                           [Str (Some (if is_null noise then EmptyString else " and noise"))]) ;;
      output <-
        match noise with
        | Some (noise, noise_size) =>
            output <- generation w (flux_generate_with_embeddings_and_noise
                                      ctx text_emb text_seq noise noise_size (params l)) ;;
            emit (Call_free "noise") ;;
            ret output
        | None =>
            generation w (flux_generate_with_embeddings ctx text_emb text_seq (params l))
        end ;;
      emit (Call_free "text_emb") ;;
      ret output
  end.

(** Lines 438-445: text-to-image mode with the internal text encoder. *)
Definition prompt_mode (w : world) (l : locals) (ctx : flux_ctx) : M (option flux_image) :=
  when (verbose l) (fprintf_stderr "Generating...\n" []) ;;
  generation w (flux_generate ctx (prompt l) (params l)).

(** Lines 323-445: the mode dispatch. *)
Definition generate_image (w : world) (l : locals) (ctx : flux_ctx)
  : M (option flux_image) :=
  match input_path l with
  | Some ip => img2img_mode w l ctx ip
  | None =>
      match embeddings_path l with
      | Some ep => embeddings_mode w l ctx ep
      | None => prompt_mode w l ctx
      end
  end.

(** Lines 447-493: disarm the progress display, report a failed
    generation, save the image, clean up. *)
Definition finish (w : world) (l : locals) (ctx : flux_ctx) (out : string)
           (output : option flux_image) : M unit :=
  when (verbose l) cli_finish_progress ;;
  match output with
  | None =>
      fprintf_stderr "Error: Generation failed: %s\n" [Str (Some (w_get_error w))] ;;
      emit (Call_flux_free ctx) ;;
      return_ 1
  | Some output =>
      let gen_time := seconds w Gen_start Gen_end in
      when (verbose l)
           (fprintf_stderr "Generated in %.2f seconds\n" [Dbl gen_time] ;;
            fprintf_stderr "Output: %dx%d, %d channels\n"
                           [Int (img_width output); Int (img_height output);
                            Int (img_channels output)]) ;;
      when (verbose l) (fprintf_stderr "Saving to %s...\n" [Str (Some out)]) ;;
      emit (Call_flux_image_save output out) ;;
      when (negb (w_image_save w output out =? 0))
           (fprintf_stderr "Error: Failed to save image: %s\n" [Str (Some out)] ;;
            emit (Call_flux_image_free output) ;;
            emit (Call_flux_free ctx) ;;
            return_ 1) ;;
      (if verbose l then fprintf_stderr "Done!\n" []
       else printf "%s\n" [Str (Some out)]) ;;
      emit (Call_flux_image_free output) ;;
      emit (Call_flux_free ctx) ;;
      return_ 0
  end.

(** Lines 233-304: everything between option parsing and the seed. *)
Definition startup (w : world) (prog : string) (l : locals) : M (string * flux_ctx) :=
  paths <- validate_required prog l ;;
  validate_params (params l) ;;
  print_settings l (fst paths) (snd paths) ;;
  ctx <- load_model w l (fst paths) ;;
  ret (snd paths, ctx).

(** Lines 306-493. *)
Definition generate_and_save (w : world) (l : locals) (out : string) (ctx : flux_ctx)
  : M unit :=
  _ <- resolve_seed w (params l) ;;
  output <- generate_image w l ctx ;;
  finish w l ctx out output.

Definition main (w : world) (prog : string) (opts : list getopt_result) : M unit :=
  l <- parse_options w prog opts initial_locals ;;
  sc <- startup w prog l ;;
  generate_and_save w l (fst sc) (snd sc).

(** One run of the program: its trace, the final value of the process-wide
    variables and its exit status. *)
Record run_result := {
  trace : list event;
  final : globals;
  exit_status : Z
}.

Definition status_of {A} (r : result A) : Z :=
  match r with
  | Return status => status
  | Next _ => 0          (* reaching the closing brace of [main] returns 0 *)
  end.

Definition run (w : world) (prog : string) (opts : list getopt_result) : run_result :=
  match main w prog opts initial_globals with
  | (t, g, r) => {| trace := t; final := g; exit_status := status_of r |}
  end.

(* ====================================================================== *)
(** * Observations on traces *)

Definition trace_of {A} (x : list event * globals * result A) : list event := fst (fst x).
Definition globals_of {A} (x : list event * globals * result A) : globals := snd (fst x).
Definition result_of {A} (x : list event * globals * result A) : result A := snd x.

(** The run as a record, from what [main] returns. *)
Definition run_of (x : list event * globals * result unit) : run_result :=
  {| trace := trace_of x; final := globals_of x; exit_status := status_of (result_of x) |}.

(** The text written to standard error, in order. *)
Fixpoint stderr_text (t : list event) : string :=
  match t with
  | [] => EmptyString
  | Stderr s :: rest => s ++ stderr_text rest
  | _ :: rest => stderr_text rest
  end.

(** The calls of generation entry points, in order. *)
Fixpoint generation_calls (t : list event) : list gen_call :=
  match t with
  | [] => []
  | Call_generation c :: rest => c :: generation_calls rest
  | _ :: rest => generation_calls rest
  end.

(** The seeds handed to [flux_set_seed], in order. *)
Fixpoint seeds_set (t : list event) : list Z :=
  match t with
  | [] => []
  | Call_flux_set_seed s :: rest => s :: seeds_set rest
  | _ :: rest => seeds_set rest
  end.

Definition count (p : event -> bool) (t : list event) : nat :=
  List.length (List.filter p t).

Definition is_stderr (e : event) : bool :=
  match e with Stderr _ => true | _ => false end.

Definition is_display (e : event) : bool :=
  match e with Stderr _ | Flush_stderr => true | _ => false end.

Definition is_load_dir (e : event) : bool :=
  match e with Call_flux_load_dir _ => true | _ => false end.

Definition is_fopen (e : event) : bool :=
  match e with Call_fopen _ => true | _ => false end.

Definition is_image_save (e : event) : bool :=
  match e with Call_flux_image_save _ _ => true | _ => false end.

(** A report of a failure: a line on standard error that starts
    with [Error:]. *)
Definition is_error_report (e : event) : bool :=
  match e with Stderr s => String.prefix "Error:" s | _ => false end.

(** Events of the start-up phase: text on standard error and the model
    load. *)
Definition startup_event (e : event) : bool :=
  match e with
  | Stderr _ | Call_flux_load_dir _ => true
  | _ => false
  end.

(** Events the mode dispatch may produce: anything but a seed, a model
    load or an image save. *)
Definition dispatch_event (e : event) : bool :=
  match e with
  | Call_flux_set_seed _ | Call_flux_load_dir _ | Call_flux_image_save _ _ => false
  | _ => true
  end.

(** The lines of [print_usage]. *)
Definition usage_trace (prog : string) : list event :=
  trace_of (print_usage prog initial_globals).

(* ====================================================================== *)
(** * States of the progress reporter *)

Definition line_break : string := String newline EmptyString.

(** The reporter regards a step line as open when [cli_current_step > 0]
    (the test of [cli_step_callback] and [cli_finish_progress]). *)
Definition line_open (g : globals) : bool := 0 <? cli_current_step g.

Definition armed (g : globals) : Prop :=
  flux_step_callback g = Some cli_step_callback_ptr /\
  flux_substep_callback g = Some cli_substep_callback_ptr.

Definition disarmed (g : globals) : Prop :=
  flux_step_callback g = None /\ flux_substep_callback g = None.

(** The process-wide variables after [cli_current_step = v]. *)
Definition with_step (g : globals) (v : Z) : globals :=
  {| cli_current_step := v;
     flux_step_callback := flux_step_callback g;
     flux_substep_callback := flux_substep_callback g;
     engine_seed := engine_seed g |}.

(** The process-wide variables after [cli_setup_progress]. *)
Definition arm (g : globals) : globals :=
  {| cli_current_step := 0;
     flux_step_callback := Some cli_step_callback_ptr;
     flux_substep_callback := Some cli_substep_callback_ptr;
     engine_seed := engine_seed g |}.

(** The process-wide variables after [cli_finish_progress]. *)
Definition disarm (g : globals) : globals :=
  {| cli_current_step := if line_open g then 0 else cli_current_step g;
     flux_step_callback := None;
     flux_substep_callback := None;
     engine_seed := engine_seed g |}.

(** The process-wide variables after [flux_set_seed (s)]. *)
Definition seeded (g : globals) (s : Z) : globals :=
  {| cli_current_step := cli_current_step g;
     flux_step_callback := flux_step_callback g;
     flux_substep_callback := flux_substep_callback g;
     engine_seed := Some s |}.

(** The process-wide variables after the engine reported [e]. *)
Definition after_event (e : progress_event) (g : globals) : globals :=
  match e with
  | Step s _ => match flux_step_callback g with Some _ => with_step g s | None => g end
  | Substep _ _ _ => g
  end.

(** The text that starts the line of a step. *)
Definition step_line (step total : Z) : string :=
  sprintf "Step %d/%d " [Int step; Int total].

(** What the callbacks write, and the state they leave, while the engine
    reports [evs]. *)
Definition reporter_output (evs : list progress_event) (g : globals) : list event :=
  fst (fst (deliver evs g)).
Definition reporter_state (evs : list progress_event) (g : globals) : globals :=
  snd (fst (deliver evs g)).

(** One armed reporting session: arm, receive [evs], disarm. *)
Definition session (evs : list progress_event) : M unit :=
  cli_setup_progress ;; deliver evs ;; cli_finish_progress.

Definition session_text (evs : list progress_event) : string :=
  stderr_text (fst (fst (session evs initial_globals))).

(* ====================================================================== *)
(** * Option sequences *)

Definition is_opt_W (o : getopt_result) : bool :=
  match o with opt_W _ => true | _ => false end.
Definition is_opt_H (o : getopt_result) : bool :=
  match o with opt_H _ => true | _ => false end.
Definition is_opt_e (o : getopt_result) : bool :=
  match o with opt_e _ => true | _ => false end.
Definition is_opt_n (o : getopt_result) : bool :=
  match o with opt_n _ => true | _ => false end.

Definition is_opt_o (o : getopt_result) : bool :=
  match o with opt_o _ => true | _ => false end.
Definition is_opt_p (o : getopt_result) : bool :=
  match o with opt_p _ => true | _ => false end.

(** The same command line without its [-n] options. *)
Definition without_noise (opts : list getopt_result) : list getopt_result :=
  List.filter (fun o => negb (is_opt_n o)) opts.

(** The argument of the last [-W] (respectively [-H]) option, if any. *)
Fixpoint last_W (opts : list getopt_result) : option string :=
  match opts with
  | [] => None
  | o :: rest =>
      match last_W rest, o with
      | Some a, _ => Some a
      | None, opt_W a => Some a
      | None, _ => None
      end
  end.

Fixpoint last_H (opts : list getopt_result) : option string :=
  match opts with
  | [] => None
  | o :: rest =>
      match last_H rest, o with
      | Some a, _ => Some a
      | None, opt_H a => Some a
      | None, _ => None
      end
  end.

(** The locals with [noise_path] reset to NULL. *)
Definition drop_noise (l : locals) : locals :=
  {| model_dir := model_dir l; prompt := prompt l; output_path := output_path l;
     input_path := input_path l; embeddings_path := embeddings_path l;
     noise_path := None; params := params l; verbose := verbose l;
     width_set := width_set l; height_set := height_set l |}.

(** [drop_noise] on the outcome of the option loop. *)
Definition drop_noise_result (r : result locals) : result locals :=
  match r with
  | Next l => Next (drop_noise l)
  | Return c => Return c
  end.

(* ====================================================================== *)
(** * Mode selection *)

(** The generation entry points. *)
Inductive entry_point :=
| EP_img2img
| EP_with_embeddings_and_noise
| EP_with_embeddings
| EP_generate.

Definition entry_of (c : gen_call) : entry_point :=
  match c with
  | flux_img2img _ _ _ _ => EP_img2img
  | flux_generate_with_embeddings_and_noise _ _ _ _ _ _ => EP_with_embeddings_and_noise
  | flux_generate_with_embeddings _ _ _ _ => EP_with_embeddings
  | flux_generate _ _ _ => EP_generate
  end.

(** The entry point the priority rule selects from the optional inputs. *)
Definition selected_entry (l : locals) : entry_point :=
  match input_path l, embeddings_path l, noise_path l with
  | Some _, _, _ => EP_img2img
  | None, Some _, Some _ => EP_with_embeddings_and_noise
  | None, Some _, None => EP_with_embeddings
  | None, None, _ => EP_generate
  end.

(** The sequence length a call passes to the engine, if it passes one. *)
Definition text_seq_arg (c : gen_call) : option Z :=
  match c with
  | flux_generate_with_embeddings_and_noise _ _ n _ _ _ => Some n
  | flux_generate_with_embeddings _ _ n _ => Some n
  | _ => None
  end.

Definition params_arg (c : gen_call) : flux_params :=
  match c with
  | flux_img2img _ _ _ p => p
  | flux_generate_with_embeddings_and_noise _ _ _ _ _ p => p
  | flux_generate_with_embeddings _ _ _ p => p
  | flux_generate _ _ p => p
  end.

(** A file that is read in full. *)
Definition reads_fully (f : option file) : bool :=
  match f with
  | Some f => file_read f =? to_size_t (file_size f)
  | None => false
  end.

(** The inputs of the selected mode load: the input image in
    image-to-image mode; the embeddings file, and the noise file when one
    is named, in external-embeddings mode. *)
Definition inputs_load (w : world) (l : locals) : bool :=
  match input_path l, embeddings_path l with
  | Some ip, _ => negb (is_null (w_image_load w ip))
  | None, Some ep =>
      reads_fully (w_fopen w ep)
      && match noise_path l with
         | Some np => reads_fully (w_fopen w np)
         | None => true
         end
  | None, None => true
  end.

(** The seed [main] resolves from the requested one. *)
Definition resolved_seed (w : world) (l : locals) : Z :=
  if 0 <=? seed (params l) then seed (params l) else w_time w.

(** The parameters image-to-image mode passes on: the requested size, or
    the input image's where no size flag was given. *)
Definition img2img_params (l : locals) (input : flux_image) : flux_params :=
  {| width := if width_set l then width (params l) else img_width input;
     height := if height_set l then height (params l) else img_height input;
     num_steps := num_steps (params l);
     guidance_scale := guidance_scale (params l);
     seed := seed (params l);
     strength := strength (params l) |}.

(** The selection policy of the specification (section 4.1), as a
    function: the one generation call a run that reached the mode dispatch
    is to make, provided the inputs of the selected mode load. *)
Definition expected_call (w : world) (l : locals) (ctx : flux_ctx) : option gen_call :=
  match input_path l with
  | Some ip =>
      match w_image_load w ip with
      | Some input => Some (flux_img2img ctx (prompt l) input (img2img_params l input))
      | None => None
      end
  | None =>
      match embeddings_path l with
      | Some ep =>
          match w_fopen w ep with
          | Some f =>
              let text_emb := {| buf_file := ep; buf_bytes := to_size_t (file_size f) |} in
              let text_seq := text_seq_of (file_size f) in
              if file_read f =? to_size_t (file_size f) then
                match noise_path l with
                | Some np =>
                    match w_fopen w np with
                    | Some nf =>
                        if file_read nf =? to_size_t (file_size nf) then
                          Some (flux_generate_with_embeddings_and_noise
                                  ctx text_emb text_seq
                                  {| buf_file := np;
                                     buf_bytes := to_size_t (file_size nf) |}
                                  (noise_size_of (file_size nf)) (params l))
                        else None
                    | None => None
                    end
                | None =>
                    Some (flux_generate_with_embeddings ctx text_emb text_seq (params l))
                end
              else None
          | None => None
          end
      | None => Some (flux_generate ctx (prompt l) (params l))
      end
  end.

Definition calls_of (c : option gen_call) : list gen_call :=
  match c with Some c => [c] | None => [] end.

(** A run reaches the mode dispatch: its options parse to the locals [l]
    and start-up (validation, banner, model load) succeeds with the trace
    [t1], the process-wide variables [g1], the output path [out] and the
    model context [ctx]. *)
Definition reaches_dispatch (w : world) (prog : string) (opts : list getopt_result)
           (l : locals) (t1 : list event) (g1 : globals) (out : string)
           (ctx : flux_ctx) : Prop :=
  parse_options w prog opts initial_locals initial_globals
  = ([], initial_globals, Next l) /\
  startup w prog l initial_globals = (t1, g1, Next (out, ctx)).

(* ====================================================================== *)
(** * Sample worlds *)

Definition sample_ctx : flux_ctx := {| flux_model_info := "FLUX.2 klein 4B" |}.
Definition sample_input : flux_image :=
  {| img_width := 512; img_height := 384; img_channels := 3 |}.
Definition sample_output : flux_image :=
  {| img_width := 256; img_height := 256; img_channels := 3 |}.

(** A world in which everything succeeds: the model loads, images load,
    files hold three tokens and a few stray bytes and are read in full, the
    engine reports two steps and returns an image, the image is saved. *)
Definition sample_world : world :=
  {| w_atof := fun _ => FNum (1 # 2);
     w_load_dir := fun _ => Some sample_ctx;
     w_get_error := "out of memory";
     w_time := 1700000000;
     w_clock := fun s =>
       match s with
       | Load_start => 0 | Load_end => 1500000
       | Gen_start => 2000000 | Gen_end => 5250000
       end;
     w_image_load := fun _ => Some sample_input;
     w_fopen := fun _ => Some {| file_size := 92165; file_read := 92165 |};
     w_engine := fun _ _ =>
       ([Step 1 2; Substep FLUX_SUBSTEP_DOUBLE_BLOCK 0 5;
         Substep FLUX_SUBSTEP_SINGLE_BLOCK 4 20;
         Step 2 2; Substep FLUX_SUBSTEP_FINAL_LAYER 0 1],
        Some sample_output);
     w_image_save := fun _ _ => 0 |}.

(** The same world with another image loader, file system or engine. *)
Definition with_image_load (w : world) (f : string -> option flux_image) : world :=
  {| w_atof := w_atof w; w_load_dir := w_load_dir w; w_get_error := w_get_error w;
     w_time := w_time w; w_clock := w_clock w; w_image_load := f;
     w_fopen := w_fopen w; w_engine := w_engine w; w_image_save := w_image_save w |}.

Definition with_fopen (w : world) (f : string -> option file) : world :=
  {| w_atof := w_atof w; w_load_dir := w_load_dir w; w_get_error := w_get_error w;
     w_time := w_time w; w_clock := w_clock w; w_image_load := w_image_load w;
     w_fopen := f; w_engine := w_engine w; w_image_save := w_image_save w |}.

Definition with_engine (w : world)
           (f : option Z -> gen_call -> list progress_event * option flux_image) : world :=
  {| w_atof := w_atof w; w_load_dir := w_load_dir w; w_get_error := w_get_error w;
     w_time := w_time w; w_clock := w_clock w; w_image_load := w_image_load w;
     w_fopen := w_fopen w; w_engine := f; w_image_save := w_image_save w |}.

(** A world whose input image does not load, and an image-to-image
    command line. *)
Definition missing_image_world : world :=
  with_image_load sample_world (fun _ => None).
Definition img2img_opts : list getopt_result :=
  [opt_d "model"; opt_p "a cat"; opt_o "cat.png"; opt_i "photo.png"].

(** A world whose files hold [7680 * 4 * 2^31] bytes, and an
    external-embeddings command line. *)
Definition huge_file : file :=
  {| file_size := 65970697666560; file_read := 65970697666560 |}.
Definition huge_file_world : world := with_fopen sample_world (fun _ => Some huge_file).
Definition embeddings_opts : list getopt_result :=
  [opt_d "model"; opt_o "out.png"; opt_e "emb.bin"].

(** A command line with an empty prompt. *)
Definition empty_prompt_opts : list getopt_result :=
  [opt_d "model"; opt_p EmptyString; opt_o "cat.png"].

(* ====================================================================== *)
(** * Claims as the specification words them *)

(** C1 as worded: every run, even read as every run that reaches the mode
    dispatch, invokes exactly one generation entry point, the one the
    priority rule selects. *)
Definition C1_as_stated : Prop :=
  forall w prog opts l t1 g1 out ctx,
    reaches_dispatch w prog opts l t1 g1 out ctx ->
    exists c, generation_calls (trace (run w prog opts)) = [c]
              /\ entry_of c = selected_entry l.

(** C5 as worded: whenever the embeddings file of a run that reaches the
    mode dispatch in external-embeddings mode holds [textDim*4*K] bytes,
    for any [K >= 0], and is read in full, every generation call of the run
    passes the sequence length [K]. *)
Definition C5_as_stated : Prop :=
  forall w prog opts l t1 g1 out ctx ep f K,
    reaches_dispatch w prog opts l t1 g1 out ctx ->
    input_path l = None -> embeddings_path l = Some ep ->
    w_fopen w ep = Some f ->
    0 <= K -> file_size f = FLUX_TEXT_DIM * 4 * K -> file_read f = file_size f ->
    forall c, In c (generation_calls (trace (run w prog opts))) ->
              text_seq_arg c = Some K.

(** C7 as worded: an invocation whose options parse, with no embeddings
    path and an absent or empty prompt, returns 1 having acquired
    nothing. *)
Definition C7_as_stated : Prop :=
  forall w prog opts l,
    parse_options w prog opts initial_locals initial_globals
    = ([], initial_globals, Next l) ->
    embeddings_path l = None ->
    prompt l = None \/ prompt l = Some EmptyString ->
    exit_status (run w prog opts) = 1 /\
    forallb is_stderr (trace (run w prog opts)) = true.

(* ====================================================================== *)
(** * Further observations: resources, standard output, validity *)

(** The text written to standard output, in order. *)
Fixpoint stdout_text (t : list event) : string :=
  match t with
  | [] => EmptyString
  | Stdout s :: rest => s ++ stdout_text rest
  | _ :: rest => stdout_text rest
  end.

Definition is_flux_free (e : event) : bool :=
  match e with Call_flux_free _ => true | _ => false end.

(** A [flux_load_dir] that returns a context. *)
Definition model_loaded (w : world) (e : event) : bool :=
  match e with
  | Call_flux_load_dir dir => negb (is_null (w_load_dir w dir))
  | _ => false
  end.

Definition is_malloc (e : event) : bool :=
  match e with Call_malloc _ _ => true | _ => false end.
Definition is_free (e : event) : bool :=
  match e with Call_free _ => true | _ => false end.
Definition is_malloc_of (var : string) (e : event) : bool :=
  match e with Call_malloc v _ => String.eqb v var | _ => false end.
Definition is_free_of (var : string) (e : event) : bool :=
  match e with Call_free v => String.eqb v var | _ => false end.

(** An [fopen] that returns a stream. *)
Definition file_opened (w : world) (e : event) : bool :=
  match e with
  | Call_fopen path => negb (is_null (w_fopen w path))
  | _ => false
  end.
Definition is_fclose (e : event) : bool :=
  match e with Call_fclose _ => true | _ => false end.

(** A [flux_image_load] that returns an image. *)
Definition image_loaded (w : world) (e : event) : bool :=
  match e with
  | Call_flux_image_load path => negb (is_null (w_image_load w path))
  | _ => false
  end.
Definition is_image_free (e : event) : bool :=
  match e with Call_flux_image_free _ => true | _ => false end.

(** The image the run's generation call returns, when the run makes one:
    the engine's answer to the call the dispatch makes, under the resolved
    seed. *)
Definition generated_image (w : world) (l : locals) (ctx : flux_ctx) : option flux_image :=
  match expected_call w l ctx with
  | Some c => snd (w_engine w (Some (resolved_seed w l)) c)
  | None => None
  end.

(** The run generates an image and saves it. *)
Definition run_succeeds (w : world) (l : locals) (ctx : flux_ctx) (out : string) : bool :=
  match generated_image w l ctx with
  | Some img => w_image_save w img out =? 0
  | None => false
  end.

(** The ranges lines 250-266 check.  The strength test is the source's
    [strength < 0.0f || strength > 1.0f], which a NaN passes. *)
Definition strength_accepted (s : fpval) : Prop :=
  match s with
  | FNum q => (0 <= q)%Q /\ (q <= 1)%Q
  | FInf _ => False
  | FNaN => True
  end.

Definition params_in_range (p : flux_params) : Prop :=
  64 <= width p <= 4096 /\ 64 <= height p <= 4096 /\
  1 <= num_steps p <= 100 /\ strength_accepted (strength p).

(** The number of step events with a positive step number. *)
Fixpoint positive_steps (evs : list progress_event) : nat :=
  match evs with
  | [] => O
  | Step s _ :: rest => ((if (0 <? s)%Z then 1 else 0) + positive_steps rest)%nat
  | Substep _ _ _ :: rest => positive_steps rest
  end.

(** The option letter of a [getopt_long] result. *)
Definition option_letter (o : getopt_result) : ascii :=
  match o with
  | opt_d _ => "d" | opt_p _ => "p" | opt_o _ => "o" | opt_W _ => "W"
  | opt_H _ => "H" | opt_s _ => "s" | opt_g _ => "g" | opt_S _ => "S"
  | opt_i _ => "i" | opt_t _ => "t" | opt_e _ => "e" | opt_n _ => "n"
  | opt_v => "v" | opt_h => "h" | opt_V => "V" | opt_unrecognised => "?"
  end%char.

(** The options that end the option loop. *)
Definition ends_loop (o : getopt_result) : bool :=
  match o with
  | opt_h | opt_V | opt_unrecognised => true
  | _ => false
  end.

(** The locals after the assignments of a sequence of options. *)
Definition assign_options (w : world) (opts : list getopt_result) (l : locals) : locals :=
  fold_left (fun l o => assign_option w o l) opts l.

(** The lines of [print_version]. *)
Definition version_trace : list event :=
  trace_of (print_version initial_globals).

(** The number of noise floats a call passes to the engine, if it passes
    noise. *)
Definition noise_size_arg (c : gen_call) : option Z :=
  match c with
  | flux_generate_with_embeddings_and_noise _ _ _ _ n _ => Some n
  | _ => None
  end.

(** What [main] writes before it saves, in verbose mode. *)
Definition generated_report (w : world) (output : flux_image) (out : string) : list event :=
  [Stderr (sprintf "Generated in %.2f seconds\n" [Dbl (seconds w Gen_start Gen_end)]);
   Stderr (sprintf "Output: %dx%d, %d channels\n"
                   [Int (img_width output); Int (img_height output);
                    Int (img_channels output)]);
   Stderr (sprintf "Saving to %s...\n" [Str (Some out)])].

(** Events outside the mode dispatch: text on either stream, the model
    load, the seed, the image save and the two final releases. *)
Definition frame_event (e : event) : bool :=
  match e with
  | Stderr _ | Stdout _ | Call_flux_load_dir _ | Call_flux_set_seed _
  | Call_flux_image_save _ _ | Call_flux_image_free _ | Call_flux_free _ => true
  | _ => false
  end.

(** The input image of image-to-image mode, when it loads. *)
Definition input_image (w : world) (l : locals) : option flux_image :=
  match input_path l with
  | Some ip => w_image_load w ip
  | None => None
  end.

(** The [flux_image_free] calls for an image that may be absent. *)
Definition frees_of (img : option flux_image) : list event :=
  match img with Some img => [Call_flux_image_free img] | None => [] end.

(** The sample world with another model loader. *)
Definition with_load_dir (w : world) (f : string -> option flux_ctx) : world :=
  {| w_atof := w_atof w; w_load_dir := f; w_get_error := w_get_error w;
     w_time := w_time w; w_clock := w_clock w; w_image_load := w_image_load w;
     w_fopen := w_fopen w; w_engine := w_engine w; w_image_save := w_image_save w |}.

Local Open Scope list_scope.

(* ====================================================================== *)
(** * Sanity checks of the C library model *)

Example sprintf_step : sprintf "Step %d/%d " [Int 3; Int 5] = "Step 3/5 ".
Proof. reflexivity. Qed.

Example sprintf_conversions :
  sprintf "%.2f|%.1f|%s|%lld\n" [Dbl (FNum (3 # 4)); Dbl (FNum 1); Str None; Int (-7)]
  = ("0.75|1.0|(null)|-7" ++ line_break)%string.
Proof. reflexivity. Qed.

Example atoi_examples :
  atoi "512" = 512 /\ atoi "  -12abc" = -12 /\ atoi "x" = 0 /\ atoi "4294967297" = 1.
Proof. repeat split; reflexivity. Qed.

(* ====================================================================== *)
(** * Integer facts *)

Lemma to_int_id z : in_int z -> to_int z = z.
Proof.
  unfold in_int, INT_MIN, INT_MAX, to_int, wrap_signed. intros H.
  change (2 ^ (32 - 1)) with 2147483648. change (2 ^ 32) with 4294967296.
  rewrite Z.mod_small by lia. lia.
Qed.

Lemma to_size_t_id z : 0 <= z <= LONG_MAX -> to_size_t z = z.
Proof.
  unfold to_size_t, LONG_MAX. intros H.
  change (2 ^ 64) with 18446744073709551616.
  apply Z.mod_small. lia.
Qed.

(** In [int] arithmetic, [(index + 1) % 5 == 0] tests divisibility of
    [index + 1] by 5, also at [INT_MAX] where the sum wraps. *)
Lemma single_block_test index :
  in_int index ->
  (Z.rem (to_int (index + 1)) 5 =? 0) = ((index + 1) mod 5 =? 0).
Proof.
  intros H. destruct (Z.eq_dec index INT_MAX) as [-> | Hne].
  - reflexivity.
  - rewrite to_int_id by (unfold in_int, INT_MIN, INT_MAX in *; lia).
    destruct (Z.eqb_spec ((index + 1) mod 5) 0) as [E | E].
    + apply Z.eqb_eq. apply Z.rem_divide; [lia|]. apply Z.mod_divide; [lia|exact E].
    + apply Z.eqb_neq. intros R. apply E.
      apply Z.mod_divide; [lia|]. apply Z.rem_divide; [lia|exact R].
Qed.

(** The size-to-length arithmetic, free of conversions when everything
    fits. *)
Lemma text_seq_of_floor size :
  0 <= size <= LONG_MAX ->
  size / (FLUX_TEXT_DIM * 4) <= INT_MAX ->
  text_seq_of size = size / (FLUX_TEXT_DIM * 4).
Proof.
  intros Hs Hq. unfold text_seq_of.
  rewrite (to_size_t_id size) by exact Hs.
  change (to_size_t (to_size_t FLUX_TEXT_DIM * sizeof_float)) with 30720.
  change (FLUX_TEXT_DIM * 4) with 30720 in *.
  apply to_int_id. unfold in_int, INT_MIN.
  pose proof (Z.div_pos size 30720). lia.
Qed.

(* ====================================================================== *)
(** * Text facts *)

Lemma line_breaks_app s t :
  line_breaks (s ++ t)%string = (line_breaks s + line_breaks t)%nat.
Proof. induction s as [|c s IH]; simpl; [reflexivity | rewrite IH; lia]. Qed.

Lemma string_app_assoc (a b c : string) : ((a ++ b) ++ c = a ++ (b ++ c))%string.
Proof. induction a as [|x a IH]; simpl; [reflexivity | now rewrite IH]. Qed.

Lemma stderr_text_app t1 t2 :
  stderr_text (t1 ++ t2) = (stderr_text t1 ++ stderr_text t2)%string.
Proof.
  induction t1 as [|e t1 IH]; simpl; [reflexivity|].
  destruct e; simpl; rewrite IH; try reflexivity.
  now rewrite string_app_assoc.
Qed.

Lemma digits_one_line d : line_breaks (NilEmpty.string_of_uint d) = O.
Proof. induction d; simpl; auto. Qed.

Lemma string_of_uint_one_line d : line_breaks (NilZero.string_of_uint d) = O.
Proof. destruct d; try apply digits_one_line. reflexivity. Qed.

(** A number printed with [%d] never contains a line feed. *)
Lemma string_of_Z_one_line z : line_breaks (string_of_Z z) = O.
Proof.
  unfold string_of_Z, NilZero.string_of_int.
  destruct (Z.to_int z); simpl; apply string_of_uint_one_line.
Qed.

Lemma step_line_one_line step total : line_breaks (step_line step total) = O.
Proof.
  unfold step_line, sprintf. cbn [format conv_d hd_error tl Ascii.eqb Bool.eqb].
  cbn [line_breaks Ascii.eqb Bool.eqb newline ascii_of_nat ascii_of_pos Pos.of_succ_nat
       Pos.succ ascii_of_N N.of_nat Nat.add].
  rewrite line_breaks_app, string_of_Z_one_line. cbn.
  rewrite line_breaks_app, string_of_Z_one_line. reflexivity.
Qed.

(* ====================================================================== *)
(** * The progress reporter *)

Lemma cli_step_callback_eq step total g :
  cli_step_callback step total g
  = ((if line_open g then [Stderr line_break] else [])
       ++ [Stderr (step_line step total); Flush_stderr],
     with_step g step, Next tt).
Proof.
  unfold cli_step_callback, line_open, bind, get_globals, when.
  destruct (0 <? cli_current_step g); reflexivity.
Qed.

Lemma cli_substep_callback_eq type index total g :
  cli_substep_callback type index total g
  = (match type with
     | FLUX_SUBSTEP_DOUBLE_BLOCK => [Stderr "d"]
     | FLUX_SUBSTEP_SINGLE_BLOCK =>
         if Z.rem (to_int (index + 1)) 5 =? 0 then [Stderr "s"] else []
     | FLUX_SUBSTEP_FINAL_LAYER => [Stderr "F"]
     end ++ [Flush_stderr], g, Next tt).
Proof.
  unfold cli_substep_callback, bind, when. destruct type; try reflexivity.
  destruct (Z.rem (to_int (index + 1)) 5 =? 0); reflexivity.
Qed.

Lemma cli_setup_progress_eq g : cli_setup_progress g = ([], arm g, Next tt).
Proof. reflexivity. Qed.

Lemma cli_finish_progress_eq g :
  cli_finish_progress g
  = (if line_open g then [Stderr line_break] else [], disarm g, Next tt).
Proof.
  unfold cli_finish_progress, disarm, line_open, bind, get_globals, when.
  destruct (0 <? cli_current_step g); reflexivity.
Qed.

Lemma line_open_disarm g : line_open (disarm g) = false.
Proof.
  unfold disarm, line_open. cbn. destruct (0 <? cli_current_step g) eqn:E; [reflexivity | exact E].
Qed.

(** The engine's events never make [main] return, and leave the callback
    registration and the seed as they were. *)
Lemma deliver_event_eq e g :
  exists t, deliver_event e g = (t, after_event e g, Next tt)
            /\ forallb is_display t = true.
Proof.
  destruct e as [s tot | ty i tot]; unfold deliver_event, after_event, bind, get_globals.
  - destruct (flux_step_callback g) as [[]|].
    + rewrite cli_step_callback_eq. eexists; split; [reflexivity|].
      destruct (line_open g); reflexivity.
    + eexists; split; reflexivity.
  - destruct (flux_substep_callback g) as [[]|].
    + rewrite cli_substep_callback_eq. eexists; split; [reflexivity|].
      destruct ty; try reflexivity. destruct (_ =? _); reflexivity.
    + eexists; split; reflexivity.
Qed.

Lemma deliver_cons e evs g :
  deliver (e :: evs) g
  = (fst (fst (deliver_event e g)) ++ fst (fst (deliver evs (after_event e g))),
     snd (fst (deliver evs (after_event e g))),
     snd (deliver evs (after_event e g))).
Proof.
  destruct (deliver_event_eq e g) as (t & E & _).
  cbn [deliver]. unfold bind. rewrite E. cbn [fst snd].
  destruct (deliver evs _) as [[t2 g2] r]. reflexivity.
Qed.

Lemma deliver_next evs : forall g, snd (deliver evs g) = Next tt.
Proof.
  induction evs as [|e evs IH]; intros g; [reflexivity|].
  rewrite deliver_cons. cbn [snd]. apply IH.
Qed.

Lemma deliver_eq evs g :
  deliver evs g = (reporter_output evs g, reporter_state evs g, Next tt).
Proof.
  unfold reporter_output, reporter_state. rewrite <- (deliver_next evs g).
  destruct (deliver evs g) as [[t g'] r]. reflexivity.
Qed.

Lemma reporter_output_cons e evs g :
  reporter_output (e :: evs) g
  = fst (fst (deliver_event e g)) ++ reporter_output evs (after_event e g).
Proof. unfold reporter_output. rewrite deliver_cons. reflexivity. Qed.

Lemma reporter_state_cons e evs g :
  reporter_state (e :: evs) g = reporter_state evs (after_event e g).
Proof. unfold reporter_state. rewrite deliver_cons. reflexivity. Qed.

Lemma after_event_frame e g :
  flux_step_callback (after_event e g) = flux_step_callback g /\
  flux_substep_callback (after_event e g) = flux_substep_callback g /\
  engine_seed (after_event e g) = engine_seed g.
Proof.
  destruct e; cbn; [destruct (flux_step_callback g) eqn:E|]; cbn; repeat split;
    solve [reflexivity | symmetry; exact E | exact E].
Qed.

Lemma reporter_state_frame evs : forall g,
  flux_step_callback (reporter_state evs g) = flux_step_callback g /\
  flux_substep_callback (reporter_state evs g) = flux_substep_callback g /\
  engine_seed (reporter_state evs g) = engine_seed g.
Proof.
  induction evs as [|e evs IH]; intros g; [repeat split; reflexivity|].
  rewrite reporter_state_cons.
  destruct (IH (after_event e g)) as (A & B & C), (after_event_frame e g) as (A' & B' & C').
  repeat split; congruence.
Qed.

Lemma reporter_output_display evs : forall g,
  forallb is_display (reporter_output evs g) = true.
Proof.
  induction evs as [|e evs IH]; intros g; [reflexivity|].
  rewrite reporter_output_cons, forallb_app, IH, andb_true_r.
  destruct (deliver_event_eq e g) as (t & E & D). rewrite E. exact D.
Qed.

(** With no callback registered the engine's events are dropped. *)
Lemma reporter_unarmed evs : forall g,
  disarmed g -> reporter_output evs g = [] /\ reporter_state evs g = g.
Proof.
  induction evs as [|e evs IH]; intros g [Hs Hss]; [split; reflexivity|].
  rewrite reporter_output_cons, reporter_state_cons.
  assert (after_event e g = g) as -> by (destruct e; cbn; [rewrite Hs|]; reflexivity).
  destruct (IH g (conj Hs Hss)) as [-> ->].
  destruct e; unfold deliver_event, bind, get_globals; [rewrite Hs | rewrite Hss];
    split; reflexivity.
Qed.

Lemma generation_eq w c g :
  generation w c g
  = (Call_generation c :: reporter_output (fst (w_engine w (engine_seed g) c)) g,
     reporter_state (fst (w_engine w (engine_seed g) c)) g,
     Next (snd (w_engine w (engine_seed g) c))).
Proof.
  unfold generation, bind, emit, get_globals. rewrite deliver_eq.
  unfold ret. cbn [app]. rewrite app_nil_r. reflexivity.
Qed.

(** Line breaks of one reporting session that starts in any state with
    the callbacks registered: one per step, plus one if a line was open. *)
Lemma armed_steps_line_breaks (steps : list (Z * Z)) : forall g,
  armed g ->
  Forall (fun st => 0 < fst st) steps ->
  let evs := map (fun st => Step (fst st) (snd st)) steps in
  line_breaks (stderr_text (reporter_output evs g
                            ++ fst (fst (cli_finish_progress (reporter_state evs g)))))
  = (List.length steps + if line_open g then 1 else 0)%nat.
Proof.
  induction steps as [|[s tot] steps IH]; intros g Harm Hpos; cbn zeta.
  - cbn [map]. unfold reporter_output, reporter_state. cbn [deliver ret fst snd app].
    rewrite cli_finish_progress_eq. destruct (line_open g); reflexivity.
  - cbn [map fst snd]. rewrite reporter_output_cons, reporter_state_cons.
    destruct Harm as [Hs Hss].
    assert (E : after_event (Step s tot) g = with_step g s)
      by (cbn; rewrite Hs; reflexivity).
    rewrite E. unfold deliver_event, bind, get_globals. rewrite Hs.
    rewrite cli_step_callback_eq. cbn [fst snd].
    inversion Hpos as [|? ? Hs0 Hrest]; subst.
    cbn [app]. rewrite <- (app_assoc _ (reporter_output _ _) _).
    rewrite stderr_text_app, line_breaks_app.
    specialize (IH (with_step g s) (conj Hs Hss) Hrest). cbn zeta in IH. rewrite IH.
    assert (line_open (with_step g s) = true) as ->
      by (unfold line_open; cbn; apply Z.ltb_lt; exact Hs0).
    rewrite stderr_text_app, line_breaks_app. cbn [stderr_text].
    rewrite line_breaks_app, step_line_one_line.
    destruct (line_open g); cbn; lia.
Qed.

(** A session of [n] steps numbered from 1 upwards renders [n] lines. *)
Lemma session_line_breaks (steps : list (Z * Z)) :
  Forall (fun st => 0 < fst st) steps ->
  line_breaks (session_text (map (fun st => Step (fst st) (snd st)) steps))
  = List.length steps.
Proof.
  intros Hpos. unfold session_text, session, bind.
  rewrite cli_setup_progress_eq, deliver_eq. cbn [fst snd app].
  destruct (cli_finish_progress _) as [[t g'] r] eqn:F. cbn [fst].
  pose proof (armed_steps_line_breaks steps (arm initial_globals)
                (conj eq_refl eq_refl) Hpos) as H.
  cbn zeta in H. rewrite F in H. cbn [fst] in H. rewrite H. cbn. lia.
Qed.

(** C3 — the step protocol of the progress reporter.  A step event writes
    a line break exactly when the previous step's line is still open
    ([cli_current_step > 0]) and then starts the new step line, which itself
    holds no line break; disarming writes a final line break exactly when a
    line is open, leaves no step in progress and clears both callbacks.
    The session (1,5), (2,5), (3,5) followed by disarm renders exactly three
    lines. *)
Theorem C3_step_protocol :
  (forall step total g,
      cli_step_callback step total g
      = ((if line_open g then [Stderr line_break] else [])
           ++ [Stderr (step_line step total); Flush_stderr],
         with_step g step, Next tt)
      /\ line_breaks (step_line step total) = 0%nat) /\
  (forall g,
      cli_finish_progress g
      = (if line_open g then [Stderr line_break] else [], disarm g, Next tt)
      /\ line_open (disarm g) = false
      /\ cli_current_step (disarm g) = Z.min 0 (cli_current_step g)
      /\ disarmed (disarm g)) /\
  session_text [Step 1 5; Step 2 5; Step 3 5]
  = ("Step 1/5 " ++ line_break ++ "Step 2/5 " ++ line_break
       ++ "Step 3/5 " ++ line_break)%string /\
  line_breaks (session_text [Step 1 5; Step 2 5; Step 3 5]) = 3%nat.
Proof.
  split; [|split; [|split]].
  - intros step total g. split.
    + apply cli_step_callback_eq.
    + apply step_line_one_line.
  - intros g. split; [apply cli_finish_progress_eq|].
    split; [apply line_open_disarm|]. split; [|split; reflexivity].
    unfold disarm, line_open. cbn [cli_current_step].
    destruct (Z.ltb_spec 0 (cli_current_step g)); lia.
  - reflexivity.
  - apply (session_line_breaks [(1, 5); (2, 5); (3, 5)]).
    repeat constructor.
Qed.

(** C4 — substep rendering.  A DoubleBlock or FinalLayer event writes
    exactly one marker; a SingleBlock event with index [i] writes one
    marker when [(i + 1) mod 5 = 0] and nothing otherwise; no substep event
    writes a line break or touches the reporter's state.  SingleBlock
    events at indices 0..9 write two markers, at indices 4 and 9. *)
Theorem C4_substep_markers (index total : Z) (g : globals) :
  in_int index ->
  let text type := stderr_text (trace_of (cli_substep_callback type index total g)) in
  cli_substep_callback FLUX_SUBSTEP_DOUBLE_BLOCK index total g
  = ([Stderr "d"; Flush_stderr], g, Next tt) /\
  cli_substep_callback FLUX_SUBSTEP_FINAL_LAYER index total g
  = ([Stderr "F"; Flush_stderr], g, Next tt) /\
  cli_substep_callback FLUX_SUBSTEP_SINGLE_BLOCK index total g
  = ((if (index + 1) mod 5 =? 0 then [Stderr "s"] else []) ++ [Flush_stderr],
     g, Next tt) /\
  text FLUX_SUBSTEP_DOUBLE_BLOCK = "d" /\
  text FLUX_SUBSTEP_FINAL_LAYER = "F" /\
  text FLUX_SUBSTEP_SINGLE_BLOCK = (if (index + 1) mod 5 =? 0 then "s" else EmptyString) /\
  (forall type, line_breaks (text type) = 0%nat) /\
  map (fun i => stderr_text
                  (trace_of (cli_substep_callback FLUX_SUBSTEP_SINGLE_BLOCK i total g)))
      [0; 1; 2; 3; 4; 5; 6; 7; 8; 9]
  = [EmptyString; EmptyString; EmptyString; EmptyString; "s";
     EmptyString; EmptyString; EmptyString; EmptyString; "s"] /\
  stderr_text
    (reporter_output
       (map (fun i => Substep FLUX_SUBSTEP_SINGLE_BLOCK i total)
            [0; 1; 2; 3; 4; 5; 6; 7; 8; 9])
       (arm g))
  = "ss".
Proof.
  intros Hi text.
  assert (S : cli_substep_callback FLUX_SUBSTEP_SINGLE_BLOCK index total g
              = ((if (index + 1) mod 5 =? 0 then [Stderr "s"] else [])
                   ++ [Flush_stderr], g, Next tt)).
  { rewrite cli_substep_callback_eq, single_block_test by exact Hi. reflexivity. }
  repeat split; try reflexivity.
  - exact S.
  - unfold text. rewrite S. destruct ((index + 1) mod 5 =? 0); reflexivity.
  - intros type. unfold text. destruct type; try reflexivity.
    rewrite S. destruct ((index + 1) mod 5 =? 0); reflexivity.
Qed.

(** Witness for C4: the SingleBlock event with index 4. *)
Lemma C4_witness :
  in_int 4 /\
  cli_substep_callback FLUX_SUBSTEP_SINGLE_BLOCK 4 20 initial_globals
  = ([Stderr "s"; Flush_stderr], initial_globals, Next tt).
Proof.
  split.
  - unfold in_int, INT_MIN, INT_MAX. lia.
  - apply (C4_substep_markers 4 20 initial_globals). unfold in_int, INT_MIN, INT_MAX. lia.
Defined.

(* ====================================================================== *)
(** * Observations over concatenated traces and over the reporter's output *)

Lemma generation_calls_app t1 t2 :
  generation_calls (t1 ++ t2) = generation_calls t1 ++ generation_calls t2.
Proof.
  induction t1 as [|e t1 IH]; [reflexivity|].
  destruct e; cbn; rewrite ?IH; reflexivity.
Qed.

Lemma seeds_set_app t1 t2 : seeds_set (t1 ++ t2) = seeds_set t1 ++ seeds_set t2.
Proof.
  induction t1 as [|e t1 IH]; [reflexivity|].
  destruct e; cbn; rewrite ?IH; reflexivity.
Qed.

Lemma count_app p t1 t2 : count p (t1 ++ t2) = (count p t1 + count p t2)%nat.
Proof. unfold count. now rewrite filter_app, length_app. Qed.

Lemma count_cons p e t : count p (e :: t) = ((if p e then 1 else 0) + count p t)%nat.
Proof. unfold count. cbn. destruct (p e); reflexivity. Qed.

Section Quiet.

(** [q] describes every event of a trace; an observation that sees
    nothing in [q]-events sees nothing in the trace. *)
Variable q : event -> bool.

Lemma generation_calls_quiet t :
  (forall e, q e = true -> generation_calls [e] = []) ->
  forallb q t = true -> generation_calls t = [].
Proof.
  intros Hq. induction t as [|e t IH]; [reflexivity|].
  cbn [forallb]. intros H. apply andb_prop in H as [He Ht].
  change (e :: t) with ([e] ++ t). now rewrite generation_calls_app, (Hq e He), IH.
Qed.

Lemma seeds_set_quiet t :
  (forall e, q e = true -> seeds_set [e] = []) ->
  forallb q t = true -> seeds_set t = [].
Proof.
  intros Hq. induction t as [|e t IH]; [reflexivity|].
  cbn [forallb]. intros H. apply andb_prop in H as [He Ht].
  change (e :: t) with ([e] ++ t). now rewrite seeds_set_app, (Hq e He), IH.
Qed.

Lemma count_quiet p t :
  (forall e, q e = true -> p e = false) ->
  forallb q t = true -> count p t = O.
Proof.
  intros Hq. induction t as [|e t IH]; [reflexivity|].
  cbn [forallb]. intros H. apply andb_prop in H as [He Ht].
  rewrite count_cons, (Hq e He), IH by exact Ht. reflexivity.
Qed.

End Quiet.

Lemma generation_calls_reporter evs g : generation_calls (reporter_output evs g) = [].
Proof.
  apply (generation_calls_quiet is_display); [|apply reporter_output_display].
  intros [] H; try discriminate; reflexivity.
Qed.

Lemma seeds_set_reporter evs g : seeds_set (reporter_output evs g) = [].
Proof.
  apply (seeds_set_quiet is_display); [|apply reporter_output_display].
  intros [] H; try discriminate; reflexivity.
Qed.

Lemma count_reporter p evs g :
  (forall e, is_display e = true -> p e = false) ->
  count p (reporter_output evs g) = O.
Proof. intros H. apply (count_quiet is_display); [exact H | apply reporter_output_display]. Qed.

(** The reporter never writes a line that starts with [Error:]. *)
Lemma error_reports_reporter evs : forall g,
  count is_error_report (reporter_output evs g) = O.
Proof.
  induction evs as [|e evs IH]; intros g; [reflexivity|].
  rewrite reporter_output_cons, count_app, IH, Nat.add_0_r.
  destruct e as [s tot | ty i tot]; unfold deliver_event, bind, get_globals.
  - destruct (flux_step_callback g) as [[]|]; [|reflexivity].
    rewrite cli_step_callback_eq. cbn [fst]. destruct (line_open g); reflexivity.
  - destruct (flux_substep_callback g) as [[]|]; [|reflexivity].
    rewrite cli_substep_callback_eq. cbn [fst].
    destruct ty; try reflexivity. destruct (_ =? _); reflexivity.
Qed.

(* ====================================================================== *)
(** * Running [main] stage by stage *)

Lemma print_usage_eq prog g : print_usage prog g = (usage_trace prog, g, Next tt).
Proof. reflexivity. Qed.

Lemma usage_trace_stderr prog : forallb is_stderr (usage_trace prog) = true.
Proof. reflexivity. Qed.

Arguments reporter_output : simpl never.
Arguments reporter_state : simpl never.
Arguments sprintf : simpl never.
Arguments text_seq_of : simpl never.
Arguments noise_size_of : simpl never.
Arguments to_size_t : simpl never.
Arguments to_int : simpl never.
Arguments usage_trace : simpl never.

(** Symbolic execution of statements. *)
Ltac exec :=
  cbv beta iota zeta delta
    [bind when emit fprintf_stderr fputc_stderr fflush_stderr printf
     ret return_ get_globals put_globals set_cli_current_step set_callbacks
     flux_set_seed print_version trace_of globals_of result_of];
  cbn [fst snd app negb is_null andb orb].

(** Replace the calls whose outcome is known in closed form. *)
Ltac known :=
  rewrite ?print_usage_eq, ?generation_eq, ?cli_setup_progress_eq,
    ?cli_finish_progress_eq.

(** What the innermost [match] or [if] of a term branches on. *)
Ltac innermost t :=
  match t with
  | context [match ?x with _ => _ end] => innermost x
  | negb ?y => innermost y
  | _ => t
  end.

Ltac split_case :=
  match goal with
  | |- ?G => let x := innermost G in destruct x eqn:?
  end.

(** Run the statements to the end, one goal per path through them. *)
Ltac crunch := repeat (exec; known; exec; try split_case).

(** ** Option parsing *)

(** The option loop leaves the process-wide variables alone; it writes
    only when it returns, and then only to standard error. *)
Lemma parse_options_inv w prog opts : forall l0 g,
  exists t r,
    parse_options w prog opts l0 g = (t, g, r) /\
    forallb is_stderr t = true /\
    (forall l, r = Next l -> t = []).
Proof.
  induction opts as [|o opts IH]; intros l0 g.
  - exists [], (Next l0). repeat split; reflexivity.
  - destruct o; cbn [parse_options];
      lazymatch goal with
      | |- context [parse_options] => apply IH
      | |- context [print_version] =>
          eexists _, _; (split; [reflexivity|]);
          (split; [reflexivity | intros ? ?; discriminate])
      | |- context [return_ ?c] =>
          exists (usage_trace prog), (Return c);
          (split; [unfold bind; rewrite print_usage_eq; reflexivity|]);
          (split; [apply usage_trace_stderr | intros ? ?; discriminate])
      end.
Qed.

(** An option loop that runs to its end has written nothing. *)
Lemma parse_options_Next w prog opts l0 g t g' l :
  parse_options w prog opts l0 g = (t, g', Next l) -> t = [] /\ g' = g.
Proof.
  intros H. destruct (parse_options_inv w prog opts l0 g) as (t0 & r & E & _ & Hn).
  rewrite E in H. inversion H; subst. split; [apply (Hn l); reflexivity | reflexivity].
Qed.

(** ** Start-up: validation, banner, model load *)

Lemma startup_inv w prog l g t1 g1 out ctx :
  startup w prog l g = (t1, g1, Next (out, ctx)) ->
  exists dir,
    model_dir l = Some dir /\ output_path l = Some out /\
    w_load_dir w dir = Some ctx /\
    g1 = (if verbose l then arm g else g) /\
    forallb startup_event t1 = true /\
    count is_load_dir t1 = 1%nat /\
    count is_error_report t1 = O.
Proof.
  unfold startup, validate_required, validate_params, print_settings, load_model.
  crunch; intros H; try discriminate; inversion H; subst;
    eexists; repeat split; first [reflexivity | eassumption].
Qed.

(** Whatever its outcome, start-up writes to standard error and loads the
    model, nothing else. *)
Lemma startup_quiet w prog l g :
  forallb startup_event (trace_of (startup w prog l g)) = true.
Proof.
  unfold startup, validate_required, validate_params, print_settings, load_model.
  crunch; reflexivity.
Qed.

(** ** The mode dispatch *)

Lemma dispatch_event_reporter evs g :
  forallb dispatch_event (reporter_output evs g) = true.
Proof.
  pose proof (reporter_output_display evs g) as H.
  induction (reporter_output evs g) as [|e t IH]; [reflexivity|].
  cbn [forallb] in *. apply andb_prop in H as [He Ht].
  rewrite (IH Ht), andb_true_r. destruct e; try discriminate; reflexivity.
Qed.

(** Decide [is_error_report] on lines whose first characters are known. *)
Ltac eval_reports :=
  repeat match goal with
         | |- context [is_error_report ?e] =>
             let v := eval lazy in (is_error_report e) in
             change (is_error_report e) with v
         end.

Ltac observe :=
  cbn [generation_calls seeds_set calls_of forallb dispatch_event];
  rewrite ?generation_calls_app, ?seeds_set_app, ?forallb_app, ?count_cons, ?count_app,
    ?generation_calls_reporter, ?seeds_set_reporter, ?error_reports_reporter,
    ?dispatch_event_reporter;
  eval_reports;
  cbn [generation_calls seeds_set calls_of forallb dispatch_event app andb count
       filter length Nat.add].

(** The dispatch makes the call the selection policy prescribes, once,
    when the inputs of the selected mode load; otherwise it makes no call,
    reports the failure once and returns 1. *)
Lemma generate_image_spec w l ctx g :
  let x := generate_image w l ctx g in
  generation_calls (trace_of x) = calls_of (expected_call w l ctx) /\
  forallb dispatch_event (trace_of x) = true /\
  match expected_call w l ctx with
  | Some c =>
      result_of x = Next (snd (w_engine w (engine_seed g) c)) /\
      globals_of x = reporter_state (fst (w_engine w (engine_seed g) c)) g /\
      count is_error_report (trace_of x) = O
  | None =>
      result_of x = Return 1 /\ globals_of x = g /\
      count is_error_report (trace_of x) = 1%nat
  end.
Proof.
  unfold generate_image, img2img_mode, embeddings_mode, prompt_mode, load_noise,
    expected_call, img2img_params.
  crunch.
  all: observe.
  all: repeat split; try reflexivity.
  all: destruct (params l); reflexivity.
Qed.

Lemma expected_call_entry w l ctx c :
  expected_call w l ctx = Some c -> entry_of c = selected_entry l.
Proof.
  unfold expected_call, selected_entry.
  destruct (input_path l) as [ip|].
  - destruct (w_image_load w ip); intros H; inversion H; reflexivity.
  - destruct (embeddings_path l) as [ep|]; [|intros H; inversion H; reflexivity].
    destruct (w_fopen w ep) as [f|]; [|discriminate].
    destruct (file_read f =? _); [|discriminate].
    destruct (noise_path l) as [np|]; [|intros H; inversion H; reflexivity].
    destruct (w_fopen w np) as [nf|]; [|discriminate].
    destruct (file_read nf =? _); [|discriminate].
    intros H; inversion H; reflexivity.
Qed.

Lemma expected_call_loads w l ctx :
  inputs_load w l = negb (is_null (expected_call w l ctx)).
Proof.
  unfold expected_call, inputs_load, reads_fully.
  destruct (input_path l) as [ip|].
  - destruct (w_image_load w ip); reflexivity.
  - destruct (embeddings_path l) as [ep|]; [|reflexivity].
    destruct (w_fopen w ep) as [f|]; [|reflexivity].
    destruct (file_read f =? _); [|reflexivity].
    destruct (noise_path l) as [np|]; [|reflexivity].
    destruct (w_fopen w np) as [nf|]; [|reflexivity].
    destruct (file_read nf =? _); reflexivity.
Qed.

(** ** Finishing *)

(** After a failed generation: the display is disarmed when it was armed,
    the failure is reported, the model is freed, [main] returns 1. *)
Lemma finish_failed w l ctx out g :
  finish w l ctx out None g
  = ((if verbose l then if line_open g then [Stderr line_break] else [] else [])
       ++ [Stderr (sprintf "Error: Generation failed: %s\n" [Str (Some (w_get_error w))]);
           Call_flux_free ctx],
     (if verbose l then disarm g else g), Return 1).
Proof.
  unfold finish. destruct (verbose l); crunch; reflexivity.
Qed.

(** Finishing makes no generation call, sets no seed, loads no model and
    opens no file. *)
Lemma finish_quiet w l ctx out output g :
  let t := trace_of (finish w l ctx out output g) in
  generation_calls t = [] /\ seeds_set t = [] /\
  count is_load_dir t = O /\ count is_fopen t = O.
Proof.
  unfold finish. crunch; repeat split; reflexivity.
Qed.

(** ** From the seed to the exit *)

Lemma generate_and_save_eq w l out ctx g :
  let s := resolved_seed w l in
  let x := generate_image w l ctx (seeded g s) in
  generate_and_save w l out ctx g
  = match result_of x with
    | Next output =>
        let y := finish w l ctx out output (globals_of x) in
        (Call_flux_set_seed s :: Stderr (sprintf "Seed: %lld\n" [Int s])
           :: trace_of x ++ trace_of y,
         globals_of y, result_of y)
    | Return c =>
        (Call_flux_set_seed s :: Stderr (sprintf "Seed: %lld\n" [Int s]) :: trace_of x,
         globals_of x, Return c)
    end.
Proof.
  cbn zeta. unfold generate_and_save, resolve_seed. fold (resolved_seed w l).
  exec. fold (seeded g (resolved_seed w l)).
  destruct (generate_image w l ctx _) as [[t2 g2] [output|c]]; exec; [|reflexivity].
  destruct (finish w l ctx out output g2) as [[t3 g3] r]. reflexivity.
Qed.

(** ** The whole run *)

Lemma main_eq w prog opts g :
  main w prog opts g
  = let p := parse_options w prog opts initial_locals g in
    match result_of p with
    | Return c => (trace_of p, g, Return c)
    | Next l =>
        let s := startup w prog l g in
        match result_of s with
        | Return c => (trace_of s, globals_of s, Return c)
        | Next sc =>
            let y := generate_and_save w l (fst sc) (snd sc) (globals_of s) in
            (trace_of s ++ trace_of y, globals_of y, result_of y)
        end
    end.
Proof.
  cbn zeta. unfold main, bind.
  destruct (parse_options_inv w prog opts initial_locals g) as (t & r & E & _ & Hn).
  rewrite E. cbn [trace_of globals_of result_of fst snd].
  destruct r as [l|c]; [|reflexivity].
  rewrite (Hn l eq_refl).
  destruct (startup w prog l g) as [[t1 g1] [sc|c]];
    cbn [trace_of globals_of result_of fst snd app]; [|reflexivity].
  destruct (generate_and_save w l (fst sc) (snd sc) g1) as [[t2 g2] r2]. reflexivity.
Qed.

Lemma run_eq w prog opts : run w prog opts = run_of (main w prog opts initial_globals).
Proof.
  unfold run, run_of. destruct (main w prog opts initial_globals) as [[t g] r]. reflexivity.
Qed.

(** A run whose options parse and whose start-up succeeds continues with
    the seed, the dispatch and the finish. *)
Lemma run_started w prog opts l t1 g1 out ctx :
  parse_options w prog opts initial_locals initial_globals
  = ([], initial_globals, Next l) ->
  startup w prog l initial_globals = (t1, g1, Next (out, ctx)) ->
  let y := generate_and_save w l out ctx g1 in
  run w prog opts
  = {| trace := t1 ++ trace_of y; final := globals_of y;
       exit_status := status_of (result_of y) |}.
Proof.
  intros Hp Hs. cbn zeta. rewrite run_eq, main_eq. cbn zeta.
  rewrite Hp. cbn [result_of snd]. rewrite Hs. reflexivity.
Qed.

(** A run whose options parse and whose start-up returns. *)
Lemma run_rejected w prog opts l t1 g1 c :
  parse_options w prog opts initial_locals initial_globals
  = ([], initial_globals, Next l) ->
  startup w prog l initial_globals = (t1, g1, Return c) ->
  run w prog opts = {| trace := t1; final := g1; exit_status := c |}.
Proof.
  intros Hp Hs. rewrite run_eq, main_eq. cbn zeta.
  rewrite Hp. cbn [result_of snd]. rewrite Hs. reflexivity.
Qed.

Lemma startup_generation_calls t : forallb startup_event t = true -> generation_calls t = [].
Proof.
  apply generation_calls_quiet. intros [] H; try discriminate; reflexivity.
Qed.

Lemma startup_seeds_set t : forallb startup_event t = true -> seeds_set t = [].
Proof.
  apply seeds_set_quiet. intros [] H; try discriminate; reflexivity.
Qed.

Lemma stderr_generation_calls t : forallb is_stderr t = true -> generation_calls t = [].
Proof.
  apply generation_calls_quiet. intros [] H; try discriminate; reflexivity.
Qed.

Lemma dispatch_seeds_set t : forallb dispatch_event t = true -> seeds_set t = [].
Proof.
  apply seeds_set_quiet. intros [] H; try discriminate; reflexivity.
Qed.

(** The generation calls of the part of a run that follows start-up. *)
Lemma generate_and_save_calls w l out ctx g :
  generation_calls (trace_of (generate_and_save w l out ctx g))
  = calls_of (expected_call w l ctx).
Proof.
  rewrite generate_and_save_eq. cbn zeta.
  destruct (generate_image_spec w l ctx (seeded g (resolved_seed w l)))
    as (Hc & _ & _).
  destruct (result_of (generate_image _ _ _ _)) as [output|c];
    cbn [trace_of fst generation_calls]; [|exact Hc].
  rewrite generation_calls_app.
  destruct (finish_quiet w l ctx out output
              (globals_of (generate_image w l ctx (seeded g (resolved_seed w l)))))
    as (Hf & _).
  unfold trace_of in *. rewrite Hc, Hf, app_nil_r. reflexivity.
Qed.

(** No run makes more than one generation call. *)
Lemma at_most_one_call w prog opts :
  (List.length (generation_calls (trace (run w prog opts))) <= 1)%nat.
Proof.
  rewrite run_eq, main_eq. cbn zeta.
  destruct (parse_options_inv w prog opts initial_locals initial_globals)
    as (t & r & E & Ht & _).
  rewrite E. cbn [trace_of result_of fst snd].
  destruct r as [l|c].
  - pose proof (startup_quiet w prog l initial_globals) as Hq.
    destruct (startup w prog l initial_globals) as [[t1 g1] [sc|c]];
      cbn [trace_of globals_of result_of fst snd run_of trace] in *.
    + rewrite generation_calls_app, (startup_generation_calls _ Hq).
      cbn [app]. fold (trace_of (generate_and_save w l (fst sc) (snd sc) g1)).
      rewrite generate_and_save_calls.
      destruct (expected_call w l (snd sc)); cbn; lia.
    + rewrite (startup_generation_calls _ Hq). cbn; lia.
  - cbn [run_of trace trace_of fst]. rewrite (stderr_generation_calls _ Ht). cbn; lia.
Qed.

(* ====================================================================== *)
(** * Mode selection *)

(** C1, counterexample — with [-i photo.png] and an image that does not
    load, the run reaches the mode dispatch, selects image-to-image and
    returns 1 without invoking any generation entry point. *)
Lemma C1_counterexample :
  generation_calls (trace (run missing_image_world "flux" img2img_opts)) = [] /\
  exit_status (run missing_image_world "flux" img2img_opts) = 1 /\
  ~ C1_as_stated.
Proof.
  split; [reflexivity|]. split; [reflexivity|].
  intros H.
  edestruct (H missing_image_world "flux" img2img_opts) as (c & Hc & _).
  - split; reflexivity.
  - discriminate Hc.
Qed.

(** C1, amended — no run invokes more than one generation entry point.  A
    run that reaches the mode dispatch makes the call the priority rule
    selects (image-to-image if an input path is present, whatever the
    embeddings path; else external embeddings, with noise exactly when a
    noise path is present; else prompt-only), exactly once, when the inputs
    of the selected mode load; when they do not, it makes no generation
    call and returns 1. *)
Theorem C1_mode_selection w prog opts :
  (List.length (generation_calls (trace (run w prog opts))) <= 1)%nat /\
  forall l t1 g1 out ctx,
    reaches_dispatch w prog opts l t1 g1 out ctx ->
    generation_calls (trace (run w prog opts)) = calls_of (expected_call w l ctx) /\
    (forall c, expected_call w l ctx = Some c -> entry_of c = selected_entry l) /\
    (inputs_load w l = true ->
     exists c, generation_calls (trace (run w prog opts)) = [c]
               /\ entry_of c = selected_entry l) /\
    (inputs_load w l = false ->
     generation_calls (trace (run w prog opts)) = []
     /\ exit_status (run w prog opts) = 1).
Proof.
  split; [apply at_most_one_call|].
  intros l t1 g1 out ctx [Hp Hs].
  rewrite (run_started _ _ _ _ _ _ _ _ Hp Hs). cbn [trace exit_status].
  destruct (startup_inv _ _ _ _ _ _ _ _ Hs) as (dir & _ & _ & _ & _ & Hq & _).
  rewrite generation_calls_app, (startup_generation_calls _ Hq), generate_and_save_calls.
  cbn [app]. rewrite (expected_call_loads w l ctx).
  split; [reflexivity|]. split; [apply expected_call_entry|].
  destruct (expected_call w l ctx) as [c|] eqn:E; cbn [is_null negb calls_of].
  - split; [|discriminate]. intros _. exists c. split; [reflexivity|].
    apply (expected_call_entry w l ctx c E).
  - split; [discriminate|]. intros _. split; [reflexivity|].
    rewrite generate_and_save_eq. cbn zeta.
    pose proof (generate_image_spec w l ctx (seeded g1 (resolved_seed w l))) as G.
    cbn zeta in G. rewrite E in G. destruct G as (_ & _ & Hr & _).
    rewrite Hr. reflexivity.
Qed.

(** Witness for C1: the sample world, external embeddings with noise. *)
Lemma C1_witness :
  exists c,
    generation_calls
      (trace (run sample_world "flux"
                  [opt_d "model"; opt_o "out.png"; opt_e "emb.bin"; opt_n "noise.bin"]))
    = [c]
    /\ entry_of c = EP_with_embeddings_and_noise.
Proof.
  refine (proj1 (proj2 (proj2
            (proj2 (C1_mode_selection sample_world "flux"
                      [opt_d "model"; opt_o "out.png"; opt_e "emb.bin"; opt_n "noise.bin"])
                   _ _ _ _ _ (conj eq_refl eq_refl)))) eq_refl).
Defined.

(* ====================================================================== *)
(** * Seed policy *)

Lemma generate_and_save_seed w l out ctx g :
  exists rest,
    trace_of (generate_and_save w l out ctx g)
    = Call_flux_set_seed (resolved_seed w l)
        :: Stderr (sprintf "Seed: %lld\n" [Int (resolved_seed w l)]) :: rest
    /\ seeds_set rest = [].
Proof.
  rewrite generate_and_save_eq. cbn zeta.
  destruct (generate_image_spec w l ctx (seeded g (resolved_seed w l)))
    as (_ & Hd & _).
  apply dispatch_seeds_set in Hd.
  destruct (result_of (generate_image _ _ _ _)) as [output|c];
    cbn [trace_of fst]; eexists; (split; [reflexivity|]); [|exact Hd].
  rewrite seeds_set_app.
  destruct (finish_quiet w l ctx out output
              (globals_of (generate_image w l ctx (seeded g (resolved_seed w l)))))
    as (_ & Hf & _).
  unfold trace_of in *. rewrite Hd, Hf. reflexivity.
Qed.

(** C2 — in every run that gets past start-up, whatever the verbose flag:
    the resolved seed is the requested one when that is non-negative and
    the clock's reading otherwise; it is handed to [flux_set_seed] exactly
    once and then printed on standard error, both before any generation
    call; it is non-negative also on the random path, the clock reading
    seconds since the Epoch. *)
Theorem C2_seed_policy w prog opts l t1 g1 out ctx :
  reaches_dispatch w prog opts l t1 g1 out ctx ->
  let r := run w prog opts in
  let s := resolved_seed w l in
  (0 <= seed (params l) -> s = seed (params l)) /\
  (seed (params l) < 0 -> s = w_time w) /\
  (exists rest,
      trace r = t1 ++ Call_flux_set_seed s
                   :: Stderr (sprintf "Seed: %lld\n" [Int s]) :: rest
      /\ seeds_set rest = []) /\
  generation_calls t1 = [] /\
  seeds_set (trace r) = [s] /\
  (0 <= w_time w -> 0 <= s).
Proof.
  intros [Hp Hs] r s. subst r s.
  rewrite (run_started _ _ _ _ _ _ _ _ Hp Hs). cbn [trace].
  destruct (startup_inv _ _ _ _ _ _ _ _ Hs) as (dir & _ & _ & _ & _ & Hq & _).
  destruct (generate_and_save_seed w l out ctx g1) as (rest & E & Hrest).
  unfold resolved_seed in *.
  split; [|split; [|split; [|split; [|split]]]].
  - intros H. apply Z.leb_le in H. now rewrite H.
  - intros H. apply Z.leb_gt in H. now rewrite H.
  - exists rest. rewrite E. split; [reflexivity | exact Hrest].
  - apply startup_generation_calls, Hq.
  - rewrite E, seeds_set_app, (startup_seeds_set _ Hq). cbn [seeds_set app].
    now rewrite Hrest.
  - intros Ht. destruct (Z.leb_spec 0 (seed (params l))); lia.
Qed.

(** Witness for C2: a non-verbose prompt-only run with seed -1, in a world
    whose clock reads 1700000000. *)
Lemma C2_witness :
  seeds_set (trace (run sample_world "flux"
                        [opt_d "model"; opt_p "a cat"; opt_o "cat.png"; opt_S "-1"]))
  = [1700000000]
  /\ 0 <= 1700000000.
Proof.
  pose proof (C2_seed_policy sample_world "flux"
                [opt_d "model"; opt_p "a cat"; opt_o "cat.png"; opt_S "-1"]
                _ _ _ _ _ (conj eq_refl eq_refl)) as H.
  cbn zeta in H. destruct H as (_ & _ & _ & _ & Hs & Hn).
  split; [exact Hs|]. apply Hn. cbn [sample_world w_time]. lia.
Defined.

(* ====================================================================== *)
(** * Runs that reach the mode dispatch *)

Lemma dispatched_calls w prog opts l t1 g1 out ctx :
  reaches_dispatch w prog opts l t1 g1 out ctx ->
  generation_calls (trace (run w prog opts)) = calls_of (expected_call w l ctx).
Proof.
  intros [Hp Hs]. rewrite (run_started _ _ _ _ _ _ _ _ Hp Hs). cbn [trace].
  destruct (startup_inv _ _ _ _ _ _ _ _ Hs) as (dir & _ & _ & _ & _ & Hq & _).
  now rewrite generation_calls_app, (startup_generation_calls _ Hq),
    generate_and_save_calls.
Qed.

Lemma inputs_load_call w l ctx :
  inputs_load w l = true -> exists c, expected_call w l ctx = Some c.
Proof.
  rewrite (expected_call_loads w l ctx).
  destruct (expected_call w l ctx) as [c|]; [eauto | discriminate].
Qed.

(* ====================================================================== *)
(** * Tensor file loader *)

(** C5, counterexample — an embeddings file of [7680 * 4 * 2^31] bytes,
    read in full: the quotient [2^31] does not fit [int text_seq], and the
    engine is called with the sequence length [-2^31]. *)
Lemma C5_counterexample :
  file_size huge_file = FLUX_TEXT_DIM * 4 * 2147483648 /\
  map text_seq_arg (generation_calls (trace (run huge_file_world "flux" embeddings_opts)))
  = [Some (-2147483648)] /\
  ~ C5_as_stated.
Proof.
  split; [reflexivity|]. split; [reflexivity|].
  intros H.
  assert (E : generation_calls (trace (run huge_file_world "flux" embeddings_opts))
              = [flux_generate_with_embeddings sample_ctx
                   {| buf_file := "emb.bin"; buf_bytes := 65970697666560 |}
                   (-2147483648) (params initial_locals)]) by reflexivity.
  specialize (H huge_file_world "flux" embeddings_opts _ _ _ _ _ "emb.bin" huge_file
                2147483648 (conj eq_refl eq_refl) eq_refl eq_refl eq_refl).
  rewrite E in H.
  specialize (H ltac:(lia) eq_refl eq_refl _ (or_introl eq_refl)).
  discriminate H.
Qed.

(** C5, amended — the sequence length is the quotient
    [floor (fileSizeBytes / (textDim * 4))] as long as that quotient fits an
    [int]: in a run that reaches the mode dispatch in external-embeddings
    mode, every generation call passes it; a file of [textDim*4*K] bytes
    with [0 <= K <= INT_MAX] gives exactly [K]; and whether the size is an
    exact multiple plays no part in whether the call is made. *)
Theorem C5_sequence_length w prog opts l t1 g1 out ctx ep f :
  reaches_dispatch w prog opts l t1 g1 out ctx ->
  input_path l = None -> embeddings_path l = Some ep ->
  w_fopen w ep = Some f ->
  0 <= file_size f <= LONG_MAX ->
  file_size f / (FLUX_TEXT_DIM * 4) <= INT_MAX ->
  let calls := generation_calls (trace (run w prog opts)) in
  text_seq_of (file_size f) = file_size f / (FLUX_TEXT_DIM * 4) /\
  (forall K, file_size f = FLUX_TEXT_DIM * 4 * K -> text_seq_of (file_size f) = K) /\
  (forall c, In c calls -> text_seq_arg c = Some (file_size f / (FLUX_TEXT_DIM * 4))) /\
  (inputs_load w l = true ->
   exists c, calls = [c] /\ text_seq_arg c = Some (file_size f / (FLUX_TEXT_DIM * 4))).
Proof.
  intros Hd Hi He Ho Hsize Hq calls.
  pose proof (text_seq_of_floor _ Hsize Hq) as Hfloor.
  assert (Hcalls : forall c, In c calls ->
                             text_seq_arg c = Some (file_size f / (FLUX_TEXT_DIM * 4))).
  { subst calls. rewrite (dispatched_calls _ _ _ _ _ _ _ _ Hd).
    unfold expected_call. rewrite Hi, He, Ho. cbn zeta.
    destruct (file_read f =? _); [|intros c []].
    destruct (noise_path l) as [np|].
    - destruct (w_fopen w np) as [nf|]; [|intros c []].
      destruct (file_read nf =? _); [|intros c []].
      intros c [<- | []]. cbn [text_seq_arg]. now rewrite Hfloor.
    - intros c [<- | []]. cbn [text_seq_arg]. now rewrite Hfloor. }
  split; [exact Hfloor|]. split; [|split; [exact Hcalls|]].
  - intros K HK. rewrite Hfloor, HK.
    rewrite Z.mul_comm. apply Z.div_mul. discriminate.
  - intros Hl. destruct (inputs_load_call w l ctx Hl) as (c & Hc).
    assert (E : calls = [c])
      by (subst calls; now rewrite (dispatched_calls _ _ _ _ _ _ _ _ Hd), Hc).
    exists c. split; [exact E|]. apply Hcalls. rewrite E. left. reflexivity.
Qed.

(** Witness for C5: three tokens and five stray bytes, read in full. *)
Lemma C5_witness :
  exists c,
    generation_calls (trace (run sample_world "flux" embeddings_opts)) = [c]
    /\ text_seq_arg c = Some (92165 / (FLUX_TEXT_DIM * 4)).
Proof.
  refine (proj2 (proj2 (proj2
            (C5_sequence_length sample_world "flux" embeddings_opts
               _ _ _ _ _ "emb.bin" {| file_size := 92165; file_read := 92165 |}
               (conj eq_refl eq_refl) eq_refl eq_refl eq_refl _ _))) eq_refl).
  - unfold LONG_MAX. cbn [file_size]. lia.
  - vm_compute. discriminate.
Defined.

(* ====================================================================== *)
(** * What the option loop records *)

Lemma parse_options_early w prog o opts l0 g t g' l :
  match o with opt_h | opt_V | opt_unrecognised => True | _ => False end ->
  parse_options w prog (o :: opts) l0 g <> (t, g', Next l).
Proof.
  destruct o; intros []; cbn [parse_options]; unfold bind;
    rewrite ?print_usage_eq; exec; discriminate.
Qed.

(** The size flags are set by [-W] and [-H], whatever their argument; the
    size is the argument of the last of them; the paths that no option
    names stay as they were. *)
Lemma parse_options_fields w prog opts : forall l0 g t g' l,
  parse_options w prog opts l0 g = (t, g', Next l) ->
  width_set l = width_set l0 || existsb is_opt_W opts /\
  height_set l = height_set l0 || existsb is_opt_H opts /\
  width (params l) = match last_W opts with
                     | Some a => atoi a
                     | None => width (params l0)
                     end /\
  height (params l) = match last_H opts with
                      | Some a => atoi a
                      | None => height (params l0)
                      end /\
  (existsb is_opt_o opts = false -> output_path l = output_path l0) /\
  (existsb is_opt_p opts = false -> prompt l = prompt l0) /\
  (existsb is_opt_e opts = false -> embeddings_path l = embeddings_path l0).
Proof.
  induction opts as [|o opts IH]; intros l0 g t g' l H.
  - inversion H; subst. cbn. rewrite !orb_false_r. repeat split; reflexivity.
  - destruct o;
      try (exfalso; revert H; apply parse_options_early; exact I);
      cbn [parse_options] in H; apply IH in H;
      destruct H as (Hw & Hh & Hpw & Hph & Ho & Hp & He);
      cbn [existsb is_opt_W is_opt_H is_opt_o is_opt_p is_opt_e last_W last_H orb];
      rewrite Hw, Hh, Hpw, Hph;
      cbn [assign_option width_set height_set params width height
           set_width set_height set_num_steps set_guidance_scale set_seed set_strength
           output_path prompt embeddings_path] in *;
      rewrite ?orb_true_r, ?orb_true_l;
      (split; [reflexivity|]); (split; [reflexivity|]);
      (split; [destruct (last_W opts); reflexivity|]);
      (split; [destruct (last_H opts); reflexivity|]);
      repeat split; intros; try discriminate; auto.
Qed.

(* ====================================================================== *)
(** * Image-to-image size *)

(** C6 — in image-to-image mode the width (respectively height) passed to
    [flux_img2img] is the input image's exactly when no [-W] (respectively
    [-H]) option was given: the flag records that the option occurred,
    whatever its argument, and when it occurred the size is the argument
    of its last occurrence, whatever the image's size.  The other
    parameters are passed on unchanged. *)
Theorem C6_img2img_size w prog opts l t1 g1 out ctx ip input :
  reaches_dispatch w prog opts l t1 g1 out ctx ->
  input_path l = Some ip ->
  w_image_load w ip = Some input ->
  let p := img2img_params l input in
  generation_calls (trace (run w prog opts)) = [flux_img2img ctx (prompt l) input p] /\
  width p = (if existsb is_opt_W opts
             then match last_W opts with Some a => atoi a | None => DEFAULT_WIDTH end
             else img_width input) /\
  height p = (if existsb is_opt_H opts
              then match last_H opts with Some a => atoi a | None => DEFAULT_HEIGHT end
              else img_height input) /\
  width_set l = existsb is_opt_W opts /\
  height_set l = existsb is_opt_H opts /\
  (existsb is_opt_W opts = true -> exists a, last_W opts = Some a) /\
  (existsb is_opt_H opts = true -> exists a, last_H opts = Some a) /\
  num_steps p = num_steps (params l) /\
  guidance_scale p = guidance_scale (params l) /\
  seed p = seed (params l) /\
  strength p = strength (params l).
Proof.
  intros Hd Hi Hl p.
  rewrite (dispatched_calls _ _ _ _ _ _ _ _ Hd).
  destruct Hd as [Hp _].
  destruct (parse_options_fields _ _ _ _ _ _ _ _ Hp) as (Hw & Hh & Hpw & Hph & _).
  cbn [initial_locals width_set height_set params width height orb] in Hw, Hh, Hpw, Hph.
  split; [unfold expected_call; rewrite Hi, Hl; reflexivity|].
  subst p. unfold img2img_params. cbn [width height num_steps guidance_scale seed strength].
  rewrite Hw, Hh, Hpw, Hph.
  repeat split; try reflexivity.
  - clear. induction opts as [|o opts IH]; [discriminate|].
    cbn [existsb last_W]. destruct (last_W opts) as [a|]; [eauto|].
    destruct o; cbn [is_opt_W orb]; eauto.
  - clear. induction opts as [|o opts IH]; [discriminate|].
    cbn [existsb last_H]. destruct (last_H opts) as [a|]; [eauto|].
    destruct o; cbn [is_opt_H orb]; eauto.
Qed.

(** Witness for C6: [-W 256] names the default width and is still kept
    against a 512x384 input image, whose height is taken. *)
Lemma C6_witness :
  map params_arg
      (generation_calls
         (trace (run sample_world "flux" (opt_W "256" :: img2img_opts))))
  = [{| width := 256; height := 384; num_steps := 4; guidance_scale := FNum 1;
        seed := -1; strength := FNum (3 # 4) |}].
Proof.
  rewrite (proj1 (C6_img2img_size sample_world "flux" (opt_W "256" :: img2img_opts)
                    _ _ _ _ _ "photo.png" sample_input
                    (conj eq_refl eq_refl) eq_refl eq_refl)).
  reflexivity.
Defined.

(* ====================================================================== *)
(** * Validation of the required arguments *)

(** A missing required argument: one error line, the usage, status 1, the
    process-wide variables untouched. *)
Lemma startup_rejects_report w prog l g :
  model_dir l = None \/ output_path l = None \/
  (prompt l = None /\ embeddings_path l = None) ->
  exists msg,
    startup w prog l g = (Stderr msg :: usage_trace prog, g, Return 1) /\
    is_error_report (Stderr msg) = true /\
    (model_dir l <> None -> prompt l = None -> embeddings_path l = None ->
     msg = sprintf "Error: Prompt (-p) or embeddings file (-e) is required\n\n" []) /\
    (model_dir l <> None -> is_null (prompt l) && is_null (embeddings_path l) = false ->
     msg = sprintf "Error: Output path is required (-o)\n\n" []).
Proof.
  unfold startup, validate_required, validate_params, print_settings, load_model.
  intros H.
  destruct (model_dir l) as [dir|].
  - destruct (is_null (prompt l) && is_null (embeddings_path l)) eqn:E.
    + crunch. eexists. split; [reflexivity|]. split; [reflexivity|].
      split; [reflexivity | discriminate].
    + destruct (output_path l) as [out|].
      * exfalso. destruct H as [H | [H | [H1 H2]]]; try discriminate.
        rewrite H1, H2 in E. discriminate.
      * crunch. eexists. split; [reflexivity|]. split; [reflexivity|].
        split; [|reflexivity].
        intros _ H1 H2. rewrite H1, H2 in E. discriminate.
  - crunch. eexists. split; [reflexivity|]. split; [reflexivity|].
    split; intros C; exfalso; apply C; reflexivity.
Qed.

Lemma stderr_cons_usage msg prog :
  forallb is_stderr (Stderr msg :: usage_trace prog) = true.
Proof. cbn [forallb is_stderr andb]. apply usage_trace_stderr. Qed.

(** A run with a missing required argument writes to standard error
    only; when its options parse it returns 1 after one error line and the
    usage. *)
Lemma run_rejects w prog opts :
  (forall l,
      parse_options w prog opts initial_locals initial_globals
      = ([], initial_globals, Next l) ->
      model_dir l = None \/ output_path l = None \/
      (prompt l = None /\ embeddings_path l = None)) ->
  forallb is_stderr (trace (run w prog opts)) = true /\
  forall l,
    parse_options w prog opts initial_locals initial_globals
    = ([], initial_globals, Next l) ->
    exit_status (run w prog opts) = 1 /\
    final (run w prog opts) = initial_globals /\
    exists msg,
      trace (run w prog opts) = Stderr msg :: usage_trace prog /\
      is_error_report (Stderr msg) = true /\
      (model_dir l <> None -> prompt l = None -> embeddings_path l = None ->
       msg = sprintf "Error: Prompt (-p) or embeddings file (-e) is required\n\n" []) /\
      (model_dir l <> None -> is_null (prompt l) && is_null (embeddings_path l) = false ->
       msg = sprintf "Error: Output path is required (-o)\n\n" []).
Proof.
  intros Hmiss. split.
  - destruct (parse_options_inv w prog opts initial_locals initial_globals)
      as (t & r & E & Ht & Hn).
    destruct r as [l|c].
    + rewrite (Hn l eq_refl) in E.
      destruct (startup_rejects_report w prog l initial_globals (Hmiss l E))
        as (msg & Hs & _).
      rewrite (run_rejected _ _ _ _ _ _ _ E Hs). apply stderr_cons_usage.
    + rewrite run_eq, main_eq. cbn zeta. rewrite E. exact Ht.
  - intros l E.
    destruct (startup_rejects_report w prog l initial_globals (Hmiss l E))
      as (msg & Hs & Hrep).
    rewrite (run_rejected _ _ _ _ _ _ _ E Hs). cbn [exit_status final trace].
    split; [reflexivity|]. split; [reflexivity|]. exists msg. split; [reflexivity | exact Hrep].
Qed.

(** C7, counterexample — [-p] with an empty string passes validation: the
    model is loaded, [flux_generate] is called with the empty prompt and
    the run returns 0. *)
Lemma C7_counterexample :
  map entry_of (generation_calls (trace (run sample_world "flux" empty_prompt_opts)))
  = [EP_generate] /\
  exit_status (run sample_world "flux" empty_prompt_opts) = 0 /\
  ~ C7_as_stated.
Proof.
  split; [reflexivity|]. split; [reflexivity|].
  intros H.
  edestruct (H sample_world "flux" empty_prompt_opts) as (Hs & _).
  - reflexivity.
  - reflexivity.
  - right. reflexivity.
  - discriminate Hs.
Qed.

(** C7, amended — the prompt has to be present, not non-empty.  An
    invocation with neither [-p] nor [-e] acquires nothing: it writes to
    standard error only; when its options parse, no prompt and no
    embeddings path are recorded and the run returns 1 after one error line
    and the usage, which is the prompt error whenever a model directory was
    given. *)
Theorem C7_prompt_required w prog opts :
  existsb is_opt_p opts = false ->
  existsb is_opt_e opts = false ->
  let r := run w prog opts in
  forallb is_stderr (trace r) = true /\
  forall l,
    parse_options w prog opts initial_locals initial_globals
    = ([], initial_globals, Next l) ->
    prompt l = None /\ embeddings_path l = None /\
    exit_status r = 1 /\
    final r = initial_globals /\
    exists msg,
      trace r = Stderr msg :: usage_trace prog /\
      is_error_report (Stderr msg) = true /\
      (model_dir l <> None ->
       msg = sprintf "Error: Prompt (-p) or embeddings file (-e) is required\n\n" []).
Proof.
  intros Hp He r. subst r.
  assert (Hnone : forall l,
             parse_options w prog opts initial_locals initial_globals
             = ([], initial_globals, Next l) ->
             prompt l = None /\ embeddings_path l = None).
  { intros l E.
    destruct (parse_options_fields _ _ _ _ _ _ _ _ E) as (_ & _ & _ & _ & _ & H1 & H2).
    split; [apply (H1 Hp) | apply (H2 He)]. }
  destruct (run_rejects w prog opts) as (Hq & Hr).
  { intros l E. right. right. apply Hnone, E. }
  split; [exact Hq|].
  intros l E. destruct (Hnone l E) as (H1 & H2), (Hr l E) as (Hx & Hf & msg & Ht & Hm & Hmsg & _).
  repeat split; try assumption.
  exists msg. repeat split; try assumption.
  intros Hdir. apply Hmsg; assumption.
Qed.

(** Witness for C7: a model directory and an output path, no prompt. *)
Lemma C7_witness :
  exit_status (run sample_world "flux" [opt_d "model"; opt_o "cat.png"]) = 1.
Proof.
  refine (proj1 (proj2 (proj2
            (proj2 (C7_prompt_required sample_world "flux"
                      [opt_d "model"; opt_o "cat.png"] eq_refl eq_refl)
                   _ eq_refl)))).
Defined.

(** C8 — an invocation with no [-o] attempts no model load and acquires
    nothing: it writes to standard error only; when its options parse, no
    output path is recorded and the run returns 1 after one error line and
    the usage, which is the output-path error whenever the model directory
    and the prompt or embeddings path were given. *)
Theorem C8_output_required w prog opts :
  existsb is_opt_o opts = false ->
  let r := run w prog opts in
  forallb is_stderr (trace r) = true /\
  count is_load_dir (trace r) = O /\
  forall l,
    parse_options w prog opts initial_locals initial_globals
    = ([], initial_globals, Next l) ->
    output_path l = None /\
    exit_status r = 1 /\
    final r = initial_globals /\
    exists msg,
      trace r = Stderr msg :: usage_trace prog /\
      is_error_report (Stderr msg) = true /\
      (model_dir l <> None ->
       is_null (prompt l) && is_null (embeddings_path l) = false ->
       msg = sprintf "Error: Output path is required (-o)\n\n" []).
Proof.
  intros Ho r. subst r.
  assert (Hnone : forall l,
             parse_options w prog opts initial_locals initial_globals
             = ([], initial_globals, Next l) ->
             output_path l = None).
  { intros l E.
    destruct (parse_options_fields _ _ _ _ _ _ _ _ E) as (_ & _ & _ & _ & H1 & _).
    apply (H1 Ho). }
  destruct (run_rejects w prog opts) as (Hq & Hr).
  { intros l E. right. left. apply Hnone, E. }
  split; [exact Hq|]. split.
  - apply (count_quiet is_stderr); [|exact Hq]. intros [] H; try discriminate; reflexivity.
  - intros l E. destruct (Hr l E) as (Hx & Hf & msg & Ht & Hm & _ & Hmsg).
    repeat split; try assumption; [apply Hnone, E|].
    exists msg. repeat split; assumption.
Qed.

(** Witness for C8: a model directory and a prompt, no output path. *)
Lemma C8_witness :
  exit_status (run sample_world "flux" [opt_d "model"; opt_p "a cat"]) = 1 /\
  count is_load_dir (trace (run sample_world "flux" [opt_d "model"; opt_p "a cat"])) = O.
Proof.
  pose proof (C8_output_required sample_world "flux" [opt_d "model"; opt_p "a cat"]
                eq_refl) as H.
  cbn zeta in H. destruct H as (_ & Hl & H). split; [|exact Hl].
  exact (proj1 (proj2 (H _ eq_refl))).
Defined.

(* ====================================================================== *)
(** * Failed generation *)

Lemma calls_of_singleton x c : calls_of x = [c] -> x = Some c.
Proof. destruct x; cbn; intros H; inversion H; reflexivity. Qed.

Lemma count_startup_image_save t :
  forallb startup_event t = true -> count is_image_save t = O.
Proof.
  apply count_quiet. intros [] H; try discriminate; reflexivity.
Qed.

Lemma count_dispatch_image_save t :
  forallb dispatch_event t = true -> count is_image_save t = O.
Proof.
  apply count_quiet. intros [] H; try discriminate; reflexivity.
Qed.

(** C9 — a verbose run (the reporter is armed once the model is loaded)
    whose generation call returns NULL: the reporter is disarmed, which
    writes a line break exactly when a step line is open, leaves no step in
    progress and clears both callbacks; then the failure is reported, once,
    the model context is freed, and the run returns 1.  Nothing is saved. *)
Theorem C9_failed_generation w prog opts l t1 g1 out ctx c :
  reaches_dispatch w prog opts l t1 g1 out ctx ->
  verbose l = true ->
  generation_calls (trace (run w prog opts)) = [c] ->
  snd (w_engine w (Some (resolved_seed w l)) c) = None ->
  let r := run w prog opts in
  let g2 := reporter_state (fst (w_engine w (Some (resolved_seed w l)) c))
                           (seeded (arm initial_globals) (resolved_seed w l)) in
  armed g1 /\
  exit_status r = 1 /\
  final r = disarm g2 /\
  disarmed (final r) /\
  line_open (final r) = false /\
  (exists before,
      trace r
      = before
          ++ (if line_open g2 then [Stderr line_break] else [])
          ++ [Stderr (sprintf "Error: Generation failed: %s\n"
                              [Str (Some (w_get_error w))]);
              Call_flux_free ctx]) /\
  count is_error_report (trace r) = 1%nat /\
  count is_image_save (trace r) = O.
Proof.
  intros Hd Hv Hcalls Hfail r g2. subst r.
  rewrite (dispatched_calls _ _ _ _ _ _ _ _ Hd) in Hcalls.
  apply calls_of_singleton in Hcalls.
  destruct Hd as [Hp Hs].
  rewrite (run_started _ _ _ _ _ _ _ _ Hp Hs). cbn [trace final exit_status].
  destruct (startup_inv _ _ _ _ _ _ _ _ Hs) as (dir & _ & _ & _ & Hg1 & Hq & _ & Herr).
  rewrite Hv in Hg1. subst g1.
  rewrite generate_and_save_eq. cbn zeta.
  pose proof (generate_image_spec w l ctx
                (seeded (arm initial_globals) (resolved_seed w l))) as G.
  cbn zeta in G. rewrite Hcalls in G. cbn [seeded engine_seed] in G.
  fold (seeded (arm initial_globals) (resolved_seed w l)) in G.
  destruct G as (_ & Hdisp & Hres & Hglob & Hrep).
  rewrite Hres, Hfail, Hglob. fold g2. rewrite finish_failed, Hv.
  cbn [trace_of globals_of result_of fst snd status_of].
  split; [split; reflexivity|]. split; [reflexivity|]. split; [reflexivity|].
  split; [split; reflexivity|]. split; [apply line_open_disarm|].
  split; [|split].
  - eexists. rewrite app_comm_cons, app_comm_cons, app_assoc. reflexivity.
  - rewrite count_app, Herr, !count_cons, !count_app, !count_cons.
    rewrite Hrep. eval_reports.
    destruct (line_open g2); reflexivity.
  - rewrite count_app, (count_startup_image_save _ Hq), !count_cons, count_app.
    rewrite (count_dispatch_image_save _ Hdisp).
    destruct (line_open g2); reflexivity.
Qed.

(** Witness for C9: a verbose run in a world whose engine reports one step
    and fails. *)
Lemma C9_witness :
  let w := with_engine sample_world (fun _ _ => ([Step 1 4], None)) in
  let r := run w "flux" [opt_d "model"; opt_p "a cat"; opt_o "cat.png"; opt_v] in
  exit_status r = 1 /\ disarmed (final r) /\ cli_current_step (final r) = 0.
Proof.
  intros w r.
  pose proof (C9_failed_generation w "flux"
                [opt_d "model"; opt_p "a cat"; opt_o "cat.png"; opt_v]
                _ _ _ _ _ _ (conj eq_refl eq_refl) eq_refl eq_refl eq_refl) as H.
  cbn zeta in H. destruct H as (_ & Hx & Hf & Hd & _).
  split; [exact Hx|]. split; [exact Hd|]. fold r in Hf. rewrite Hf. reflexivity.
Defined.

(* ====================================================================== *)
(** * The noise path without an embeddings path *)

Lemma parse_without_noise w prog opts : forall l0 g,
  parse_options w prog (without_noise opts) (drop_noise l0) g
  = (trace_of (parse_options w prog opts l0 g),
     globals_of (parse_options w prog opts l0 g),
     drop_noise_result (result_of (parse_options w prog opts l0 g))).
Proof.
  induction opts as [|o opts IH]; intros l0 g; [reflexivity|].
  destruct o; cbn [without_noise filter is_opt_n negb parse_options];
    fold (without_noise opts);
    lazymatch goal with
    | |- context [print_usage] => unfold bind; rewrite print_usage_eq; reflexivity
    | |- context [print_version] => reflexivity
    | |- context [assign_option w ?o l0] => exact (IH (assign_option w o l0) g)
    end.
Qed.

Lemma startup_drop_noise w prog l g :
  startup w prog (drop_noise l) g = startup w prog l g.
Proof.
  unfold startup, validate_required, validate_params, print_settings, load_model.
  cbn [drop_noise model_dir prompt output_path input_path embeddings_path params verbose].
  reflexivity.
Qed.

Lemma generate_and_save_drop_noise w l out ctx g :
  embeddings_path l = None ->
  generate_and_save w (drop_noise l) out ctx g = generate_and_save w l out ctx g.
Proof.
  intros He.
  unfold generate_and_save, generate_image, img2img_mode, prompt_mode, finish.
  cbn [drop_noise model_dir prompt output_path input_path embeddings_path params verbose
       width_set height_set].
  rewrite He. reflexivity.
Qed.

(** Without an embeddings path the dispatch opens no file. *)
Lemma generate_image_no_fopen w l ctx g :
  embeddings_path l = None ->
  count is_fopen (trace_of (generate_image w l ctx g)) = O.
Proof.
  intros He. unfold generate_image, img2img_mode, prompt_mode. rewrite He.
  crunch; rewrite ?count_cons, ?count_app;
    rewrite ?(count_reporter is_fopen)
      by (intros [] ?; try discriminate; reflexivity);
    reflexivity.
Qed.

Lemma generate_and_save_no_fopen w l out ctx g :
  embeddings_path l = None ->
  count is_fopen (trace_of (generate_and_save w l out ctx g)) = O.
Proof.
  intros He. rewrite generate_and_save_eq. cbn zeta.
  pose proof (generate_image_no_fopen w l ctx (seeded g (resolved_seed w l)) He) as H.
  destruct (result_of (generate_image _ _ _ _)) as [output|c];
    cbn [trace_of fst]; rewrite !count_cons; cbn [is_fopen Nat.add]; [|exact H].
  rewrite count_app.
  destruct (finish_quiet w l ctx out output
              (globals_of (generate_image w l ctx (seeded g (resolved_seed w l)))))
    as (_ & _ & _ & Hf).
  unfold trace_of in *. rewrite H, Hf. reflexivity.
Qed.

(** C10 — with no [-e] option, a noise path changes nothing: the run is
    the same, event for event, final state and exit status included, as
    the run of the command line without its [-n] options, and it opens no
    file at all, so not the noise file either. *)
Theorem C10_noise_ignored w prog opts :
  existsb is_opt_e opts = false ->
  run w prog opts = run w prog (without_noise opts) /\
  count is_fopen (trace (run w prog opts)) = O.
Proof.
  intros He.
  assert (Hemb : forall t g' l,
             parse_options w prog opts initial_locals initial_globals = (t, g', Next l) ->
             embeddings_path l = None).
  { intros t g' l E.
    destruct (parse_options_fields _ _ _ _ _ _ _ _ E) as (_ & _ & _ & _ & _ & _ & H).
    apply (H He). }
  rewrite !run_eq, !main_eq. cbn zeta.
  pose proof (parse_without_noise w prog opts initial_locals initial_globals) as Hw.
  change (drop_noise initial_locals) with initial_locals in Hw. rewrite Hw. clear Hw.
  destruct (parse_options_inv w prog opts initial_locals initial_globals)
    as (t & r & E & Ht & Hn).
  rewrite E. rewrite E in Hemb.
  cbn [trace_of globals_of result_of fst snd drop_noise_result].
  destruct r as [l|c]; cbn [drop_noise_result].
  - rewrite startup_drop_noise.
    pose proof (startup_quiet w prog l initial_globals) as Hq.
    destruct (startup w prog l initial_globals) as [[t1 g1] [sc|c]];
      cbn [trace_of globals_of result_of fst snd run_of trace] in *.
    + rewrite (generate_and_save_drop_noise w l (fst sc) (snd sc) g1 (Hemb _ _ _ eq_refl)).
      split; [reflexivity|].
      rewrite count_app, (count_quiet startup_event is_fopen _) by
          (first [exact Hq | intros [] ?; try discriminate; reflexivity]).
      apply (generate_and_save_no_fopen w l (fst sc) (snd sc) g1 (Hemb _ _ _ eq_refl)).
    + split; [reflexivity|].
      apply (count_quiet startup_event); [|exact Hq].
      intros [] ?; try discriminate; reflexivity.
  - split; [reflexivity|].
    apply (count_quiet is_stderr); [|exact Ht].
    intros [] ?; try discriminate; reflexivity.
Qed.

(** Witness for C10: image-to-image with a noise path. *)
Lemma C10_witness :
  run sample_world "flux" (opt_n "noise.bin" :: img2img_opts)
  = run sample_world "flux" img2img_opts.
Proof.
  exact (proj1 (C10_noise_ignored sample_world "flux"
                  (opt_n "noise.bin" :: img2img_opts) eq_refl)).
Defined.

(* ====================================================================== *)
(** * The progress reporter over arbitrary sessions *)

Lemma substep_output_one_line type index total g :
  line_breaks (stderr_text (trace_of (cli_substep_callback type index total g))) = O.
Proof.
  rewrite cli_substep_callback_eq. cbn [trace_of fst].
  destruct type; try reflexivity. destruct (_ =? _); reflexivity.
Qed.

(** From any state with both callbacks registered: the events followed by
    the disarm write one line break per step event with a positive step
    number, and one more if a line was open at the start. *)
Lemma armed_line_breaks evs : forall g,
  armed g ->
  line_breaks (stderr_text (reporter_output evs g
                            ++ trace_of (cli_finish_progress (reporter_state evs g))))
  = (positive_steps evs + if line_open g then 1 else 0)%nat.
Proof.
  induction evs as [|e evs IH]; intros g Harm.
  - unfold reporter_output, reporter_state. cbn [deliver ret fst snd app positive_steps].
    rewrite cli_finish_progress_eq. destruct (line_open g); reflexivity.
  - rewrite reporter_output_cons, reporter_state_cons.
    rewrite <- app_assoc, stderr_text_app, line_breaks_app.
    destruct Harm as [Hs Hss].
    destruct e as [s tot | ty i tot]; cbn [positive_steps].
    + assert (E : after_event (Step s tot) g = with_step g s)
        by (cbn; rewrite Hs; reflexivity).
      rewrite E, (IH (with_step g s) (conj Hs Hss)).
      unfold deliver_event, bind, get_globals. rewrite Hs, cli_step_callback_eq.
      cbn [fst app]. rewrite stderr_text_app, line_breaks_app. cbn [stderr_text].
      rewrite line_breaks_app, step_line_one_line.
      unfold line_open at 2. cbn [with_step cli_current_step].
      destruct (line_open g), (0 <? s); cbn; lia.
    + cbn [after_event]. rewrite (IH g (conj Hs Hss)).
      unfold deliver_event, bind, get_globals. rewrite Hss.
      rewrite cli_substep_callback_eq. cbn [fst app].
      destruct ty; try reflexivity. destruct (_ =? _); reflexivity.
Qed.

(** X1 — whatever the engine reports, one armed session (arm, events,
    disarm) writes exactly as many line breaks as it received step events
    with a positive step number: substeps never break a line, a step line
    is closed by the next step or by the disarm, and the line of a step
    numbered 0 or below is never closed.  The session ends with both
    callbacks cleared and no step in progress. *)
Theorem session_lines evs :
  line_breaks (session_text evs) = positive_steps evs /\
  disarmed (globals_of (session evs initial_globals)) /\
  line_open (globals_of (session evs initial_globals)) = false.
Proof.
  unfold session_text, session, bind.
  rewrite cli_setup_progress_eq, deliver_eq. cbn [fst snd app].
  pose proof (armed_line_breaks evs (arm initial_globals) (conj eq_refl eq_refl)) as H.
  rewrite cli_finish_progress_eq in *. cbn [trace_of globals_of fst snd] in *.
  split; [|split].
  - rewrite H. cbn. lia.
  - split; reflexivity.
  - apply line_open_disarm.
Qed.

(* ====================================================================== *)
(** * The option loop *)

Lemma print_version_eq g : print_version g = (version_trace, g, Next tt).
Proof. reflexivity. Qed.

Lemma assign_options_app w a b l :
  assign_options w (a ++ b) l = assign_options w b (assign_options w a l).
Proof. unfold assign_options. apply fold_left_app. Qed.

(** Without [-h], [-V] or an unrecognised option the loop only assigns. *)
Lemma parse_options_assigns w prog opts : forall l g,
  forallb (fun o => negb (ends_loop o)) opts = true ->
  parse_options w prog opts l g = ([], g, Next (assign_options w opts l)).
Proof.
  induction opts as [|o opts IH]; intros l g H; [reflexivity|].
  cbn [forallb] in H. apply andb_prop in H as [Ho Hrest].
  destruct o; try discriminate Ho; cbn [parse_options]; exact (IH _ g Hrest).
Qed.

(** The loop stops at the first [-h], [-V] or unrecognised option. *)
Lemma parse_options_cut w prog pre o post : forall l g,
  forallb (fun o => negb (ends_loop o)) pre = true ->
  ends_loop o = true ->
  parse_options w prog (pre ++ o :: post) l g
  = (match o with opt_V => version_trace | _ => usage_trace prog end, g,
     Return (match o with opt_unrecognised => 1 | _ => 0 end)).
Proof.
  induction pre as [|a pre IH]; intros l g H Ho.
  - destruct o; try discriminate Ho; cbn [app parse_options]; unfold bind;
      rewrite ?print_usage_eq, ?print_version_eq; reflexivity.
  - cbn [forallb] in H. apply andb_prop in H as [Ha Hrest].
    destruct a; try discriminate Ha; cbn [app parse_options]; exact (IH _ g Hrest Ho).
Qed.

(** X2 — the first [-h], [-V] or unrecognised option decides the run:
    the usage (for [-V] the version) is printed, nothing is validated,
    loaded or generated, and the run returns 0 (1 for an unrecognised
    option), whatever options precede or follow it. *)
Theorem option_loop_cut w prog pre o post :
  forallb (fun o => negb (ends_loop o)) pre = true ->
  ends_loop o = true ->
  run w prog (pre ++ o :: post)
  = {| trace := match o with opt_V => version_trace | _ => usage_trace prog end;
       final := initial_globals;
       exit_status := match o with opt_unrecognised => 1 | _ => 0 end |}.
Proof.
  intros H Ho. rewrite run_eq, main_eq. cbn zeta.
  rewrite (parse_options_cut w prog pre o post _ _ H Ho). reflexivity.
Qed.

(** Witness for X2: [-h] between a valid command line and garbage. *)
Lemma option_loop_cut_witness :
  exit_status (run sample_world "flux"
                   ([opt_d "model"; opt_p "a cat"] ++ opt_h :: [opt_unrecognised; opt_W "1"]))
  = 0.
Proof.
  rewrite (option_loop_cut sample_world "flux" [opt_d "model"; opt_p "a cat"] opt_h
             [opt_unrecognised; opt_W "1"] eq_refl eq_refl).
  reflexivity.
Defined.

(** Two assignments for the same option: the later one stands.  Two
    assignments for different options: their order does not matter. *)
Lemma assign_option_twice w o1 o2 l :
  option_letter o1 = option_letter o2 ->
  assign_option w o2 (assign_option w o1 l) = assign_option w o2 l.
Proof.
  destruct o1, o2; intros H; try discriminate H; destruct l; reflexivity.
Qed.

Lemma assign_option_comm w o1 o2 l :
  option_letter o1 <> option_letter o2 ->
  assign_option w o2 (assign_option w o1 l) = assign_option w o1 (assign_option w o2 l).
Proof.
  destruct o1, o2; intros H; try (exfalso; apply H; reflexivity); destruct l; reflexivity.
Qed.

Lemma parse_options_congr w prog pre a b : forall l g,
  (forall l g, parse_options w prog a l g = parse_options w prog b l g) ->
  parse_options w prog (pre ++ a) l g = parse_options w prog (pre ++ b) l g.
Proof.
  induction pre as [|o pre IH]; intros l g H; [apply H|].
  destruct o; cbn [app parse_options]; try reflexivity; apply IH, H.
Qed.

Lemma run_congr w prog a b :
  (forall l g, parse_options w prog a l g = parse_options w prog b l g) ->
  run w prog a = run w prog b.
Proof.
  intros H. rewrite !run_eq. unfold main, bind. rewrite H. reflexivity.
Qed.

(** X3 — of two adjacent options with the same letter only the second
    counts: the run is the run without the first. *)
Theorem repeated_option_last_wins w prog pre o1 o2 post :
  option_letter o1 = option_letter o2 ->
  run w prog (pre ++ o1 :: o2 :: post) = run w prog (pre ++ o2 :: post).
Proof.
  intros H. apply run_congr. intros l g. apply parse_options_congr. clear l g.
  intros l g.
  destruct o1, o2; try discriminate H; cbn [parse_options]; try reflexivity;
    (rewrite assign_option_twice by reflexivity); reflexivity.
Qed.

(** Witness for X3: [-W 64 -W 512] is [-W 512]. *)
Lemma repeated_option_last_wins_witness :
  run sample_world "flux" ([opt_d "model"] ++ opt_W "64" :: opt_W "512" :: [opt_p "x"])
  = run sample_world "flux" ([opt_d "model"] ++ opt_W "512" :: [opt_p "x"]).
Proof.
  exact (repeated_option_last_wins sample_world "flux" [opt_d "model"]
           (opt_W "64") (opt_W "512") [opt_p "x"] eq_refl).
Defined.

(** X4 — two adjacent options with different letters, neither of which
    ends the loop, can be exchanged: the run is the same. *)
Theorem distinct_options_commute w prog pre o1 o2 post :
  option_letter o1 <> option_letter o2 ->
  ends_loop o1 = false -> ends_loop o2 = false ->
  run w prog (pre ++ o1 :: o2 :: post) = run w prog (pre ++ o2 :: o1 :: post).
Proof.
  intros H H1 H2. apply run_congr. intros l g. apply parse_options_congr. clear l g.
  intros l g.
  destruct o1; try discriminate H1; destruct o2; try discriminate H2;
    cbn [parse_options]; try (exfalso; apply H; reflexivity);
    (rewrite assign_option_comm by discriminate); reflexivity.
Qed.

(** Witness for X4: [-W 512 -H 128] and [-H 128 -W 512]. *)
Lemma distinct_options_commute_witness :
  run sample_world "flux" ([opt_d "model"] ++ opt_W "512" :: opt_H "128" :: [opt_p "x"])
  = run sample_world "flux" ([opt_d "model"] ++ opt_H "128" :: opt_W "512" :: [opt_p "x"]).
Proof.
  refine (distinct_options_commute sample_world "flux" [opt_d "model"]
            (opt_W "512") (opt_H "128") [opt_p "x"] _ eq_refl eq_refl).
  discriminate.
Defined.

(* ====================================================================== *)
(** * Parameter ranges *)

Lemma strength_check s :
  fp_ltb s (FNum 0) || fp_ltb (FNum 1) s = false <-> strength_accepted s.
Proof.
  destruct s as [q | neg |]; cbn [fp_ltb strength_accepted].
  - unfold Qltb. rewrite orb_false_iff, !negb_false_iff, !Qle_bool_iff. tauto.
  - destruct neg; cbn; split; intros H; try discriminate H; destruct H.
  - cbn. tauto.
Qed.

Lemma range_check lo hi v : (v <? lo) || (hi <? v) = false <-> lo <= v <= hi.
Proof. rewrite orb_false_iff, !Z.ltb_ge. tauto. Qed.

(** The four range checks pass exactly on [params_in_range]; a failing one
    writes its one error line, without the usage, and returns 1; the checks
    are made in the order width, height, steps, strength. *)
Lemma validate_params_spec p g :
  (params_in_range p -> validate_params p g = ([], g, Next tt)) /\
  (~ 64 <= width p <= 4096 ->
   validate_params p g
   = ([Stderr (sprintf "Error: Width must be between 64 and 4096\n" [])], g, Return 1)) /\
  (64 <= width p <= 4096 -> ~ 64 <= height p <= 4096 ->
   validate_params p g
   = ([Stderr (sprintf "Error: Height must be between 64 and 4096\n" [])], g, Return 1)) /\
  (64 <= width p <= 4096 -> 64 <= height p <= 4096 -> ~ 1 <= num_steps p <= 100 ->
   validate_params p g
   = ([Stderr (sprintf "Error: Steps must be between 1 and 100\n" [])], g, Return 1)) /\
  (64 <= width p <= 4096 -> 64 <= height p <= 4096 -> 1 <= num_steps p <= 100 ->
   ~ strength_accepted (strength p) ->
   validate_params p g
   = ([Stderr (sprintf "Error: Strength must be between 0.0 and 1.0\n" [])], g, Return 1)).
Proof.
  unfold validate_params, params_in_range.
  pose proof (range_check 64 4096 (width p)) as Hw.
  pose proof (range_check 64 4096 (height p)) as Hh.
  pose proof (range_check 1 100 (num_steps p)) as Hn.
  pose proof (strength_check (strength p)) as Hs.
  destruct ((width p <? 64) || (4096 <? width p));
    destruct ((height p <? 64) || (4096 <? height p));
    destruct ((num_steps p <? 1) || (100 <? num_steps p));
    destruct (fp_ltb (strength p) (FNum 0) || fp_ltb (FNum 1) (strength p));
    exec;
    repeat match goal with
           | H : true = false <-> ?P |- _ =>
               assert (~ P) by (intros X; apply H in X; discriminate X); clear H
           | H : false = false <-> ?P |- _ =>
               assert P by (apply H; reflexivity); clear H
           end;
    (split; [|split; [|split; [|split]]]); intros;
    repeat match goal with
           | H : _ /\ _ /\ _ /\ _ |- _ => destruct H as (? & ? & ? & ?)
           end;
    first [ contradiction | reflexivity ].
Qed.







(* ====================================================================== *)
(** * How a run ends *)

(** After a successful generation: disarm, report, save; then either the
    confirmation (on standard output when not verbose) or the save error;
    then the image and the model are freed. *)
Lemma finish_generated w l ctx out output g :
  finish w l ctx out (Some output) g
  = ((if verbose l
      then (if line_open g then [Stderr line_break] else [])
             ++ generated_report w output out
      else [])
       ++ Call_flux_image_save output out
       :: (if w_image_save w output out =? 0
           then (if verbose l then Stderr (sprintf "Done!\n" [])
                 else Stdout (sprintf "%s\n" [Str (Some out)]))
           else Stderr (sprintf "Error: Failed to save image: %s\n" [Str (Some out)]))
       :: [Call_flux_image_free output; Call_flux_free ctx],
     (if verbose l then disarm g else g),
     Return (if w_image_save w output out =? 0 then 0 else 1)).
Proof.
  unfold finish, generated_report.
  destruct (verbose l); [destruct (line_open g) eqn:E|];
    destruct (w_image_save w output out =? 0);
    exec; rewrite ?cli_finish_progress_eq, ?E; reflexivity.
Qed.

Lemma finish_globals w l ctx out output g :
  globals_of (finish w l ctx out output g) = if verbose l then disarm g else g.
Proof.
  destruct output; [rewrite finish_generated | rewrite finish_failed]; reflexivity.
Qed.

(** The dispatch leaves the callback registration as it found it. *)
Lemma generate_image_callbacks w l ctx g :
  let g' := globals_of (generate_image w l ctx g) in
  flux_step_callback g' = flux_step_callback g /\
  flux_substep_callback g' = flux_substep_callback g.
Proof.
  cbn zeta. pose proof (generate_image_spec w l ctx g) as H. cbn zeta in H.
  destruct H as (_ & _ & H).
  destruct (expected_call w l ctx) as [c|]; destruct H as (_ & -> & _).
  - destruct (reporter_state_frame (fst (w_engine w (engine_seed g) c)) g) as (A & B & _).
    split; assumption.
  - split; reflexivity.
Qed.

Lemma generate_and_save_globals w l out ctx g :
  let x := generate_image w l ctx (seeded g (resolved_seed w l)) in
  globals_of (generate_and_save w l out ctx g)
  = match result_of x with
    | Next _ => if verbose l then disarm (globals_of x) else globals_of x
    | Return _ => globals_of x
    end.
Proof.
  cbn zeta. rewrite generate_and_save_eq. cbn zeta.
  destruct (result_of (generate_image _ _ _ _)) as [output|c]; [|reflexivity].
  cbn [globals_of fst snd]. apply finish_globals.
Qed.

(** X7 — after a run that got to the mode dispatch, the two progress
    callbacks are cleared unless the run was verbose and failed to load
    the inputs of its mode: those early returns skip
    [cli_finish_progress], and the process ends with the callbacks still
    registered. *)
Theorem callbacks_at_exit w prog opts l t1 g1 out ctx :
  reaches_dispatch w prog opts l t1 g1 out ctx ->
  (disarmed (final (run w prog opts)) <-> verbose l = false \/ inputs_load w l = true) /\
  (verbose l = true -> inputs_load w l = false -> armed (final (run w prog opts))).
Proof.
  intros [Hp Hs]. rewrite (run_started _ _ _ _ _ _ _ _ Hp Hs). cbn [final].
  destruct (startup_inv _ _ _ _ _ _ _ _ Hs) as (dir & _ & _ & _ & Hg1 & _).
  rewrite generate_and_save_globals. cbn zeta.
  rewrite (expected_call_loads w l ctx).
  pose proof (generate_image_spec w l ctx (seeded g1 (resolved_seed w l))) as G.
  pose proof (generate_image_callbacks w l ctx (seeded g1 (resolved_seed w l))) as C.
  cbn zeta in G, C. destruct G as (_ & _ & G).
  destruct (expected_call w l ctx) as [c|]; destruct G as (-> & Hg & _);
    cbn [is_null negb]; unfold disarmed, armed.
  - destruct (verbose l); cbn [disarm flux_step_callback flux_substep_callback].
    + split; [|intros _ H; discriminate H]. split; [intros _; right; reflexivity|].
      intros _. split; reflexivity.
    + destruct C as (-> & ->). subst g1. cbn.
      split; [|intros H; discriminate H]. split; [intros _; left; reflexivity|].
      intros _. split; reflexivity.
  - destruct C as (-> & ->). subst g1.
    destruct (verbose l); cbn.
    + split; [|intros _ _; split; reflexivity].
      split; [intros [H _]; discriminate H | intros [H | H]; discriminate H].
    + split; [|intros H; discriminate H]. split; [intros _; left; reflexivity|].
      intros _. split; reflexivity.
Qed.

(** Witness for X7: a verbose run whose input image does not load. *)
Lemma callbacks_at_exit_witness :
  armed (final (run missing_image_world "flux" (opt_v :: img2img_opts))).
Proof.
  exact (proj2 (callbacks_at_exit missing_image_world "flux" (opt_v :: img2img_opts)
                  _ _ _ _ _ (conj eq_refl eq_refl)) eq_refl eq_refl).
Defined.

(* ====================================================================== *)
(** * Resources and standard output, stage by stage *)

Lemma stdout_text_app t1 t2 :
  stdout_text (t1 ++ t2) = (stdout_text t1 ++ stdout_text t2)%string.
Proof.
  induction t1 as [|e t1 IH]; simpl; [reflexivity|].
  destruct e; simpl; rewrite IH; try reflexivity.
  now rewrite string_app_assoc.
Qed.

Lemma stdout_text_quiet (q : event -> bool) t :
  (forall e, q e = true -> is_display e = true \/ stdout_text [e] = EmptyString) ->
  forallb q t = true -> stdout_text t = EmptyString.
Proof.
  intros Hq. induction t as [|e t IH]; [reflexivity|].
  cbn [forallb]. intros H. apply andb_prop in H as [He Ht].
  specialize (IH Ht). pose proof (Hq e He) as Hcase.
  destruct e; cbn [stdout_text is_display] in *; try exact IH.
  destruct Hcase as [Hd | Hs]; [discriminate Hd|].
  destruct text; [exact IH | discriminate Hs].
Qed.

Lemma stdout_text_reporter evs g : stdout_text (reporter_output evs g) = EmptyString.
Proof.
  apply (stdout_text_quiet is_display); [|apply reporter_output_display].
  intros e H. left. exact H.
Qed.

Lemma stdout_text_startup t : forallb startup_event t = true -> stdout_text t = EmptyString.
Proof.
  apply stdout_text_quiet. intros [] H; try discriminate H; auto.
Qed.

Lemma stdout_text_stderr t : forallb is_stderr t = true -> stdout_text t = EmptyString.
Proof.
  apply stdout_text_quiet. intros [] H; try discriminate H; auto.
Qed.

(** Use what is known of the world's answers. *)
Ltac world_facts :=
  repeat match goal with
         | H : w_fopen _ _ = _ |- _ => rewrite H
         | H : w_image_load _ _ = _ |- _ => rewrite H
         | H : w_load_dir _ _ = _ |- _ => rewrite H
         end.

Ltac tally :=
  cbn [trace_of result_of globals_of fst snd];
  rewrite ?stdout_text_app, ?count_cons, ?count_app;
  rewrite ?stdout_text_reporter;
  rewrite ?(count_reporter is_flux_free), ?(count_reporter is_malloc),
    ?(count_reporter is_free), ?(count_reporter (is_malloc_of _)),
    ?(count_reporter (is_free_of _)), ?(count_reporter is_fclose),
    ?(count_reporter (file_opened _)), ?(count_reporter is_image_free),
    ?(count_reporter (image_loaded _)), ?(count_reporter (model_loaded _))
    by (intros [] ?; try discriminate; reflexivity);
  cbn [is_flux_free is_malloc is_free is_malloc_of is_free_of is_fclose file_opened
       is_image_free image_loaded model_loaded stdout_text];
  world_facts.

(** Whatever path the dispatch takes: it writes nothing on standard
    output; every buffer it allocates, stream it opens and image it loads
    is released once; the model context is freed exactly on the paths that
    return, and then last. *)
Lemma generate_image_resources w l ctx g :
  let x := generate_image w l ctx g in
  stdout_text (trace_of x) = EmptyString /\
  count is_flux_free (trace_of x)
  = match result_of x with Return _ => 1%nat | Next _ => O end /\
  count (is_malloc_of "text_emb") (trace_of x)
  = count (is_free_of "text_emb") (trace_of x) /\
  count (is_malloc_of "noise") (trace_of x) = count (is_free_of "noise") (trace_of x) /\
  count is_malloc (trace_of x) = count is_free (trace_of x) /\
  count (file_opened w) (trace_of x) = count is_fclose (trace_of x) /\
  count (image_loaded w) (trace_of x) = count is_image_free (trace_of x) /\
  count (model_loaded w) (trace_of x) = O /\
  match result_of x with
  | Return _ => List.last (trace_of x) Flush_stderr = Call_flux_free ctx
  | Next _ => True
  end.
Proof.
  unfold generate_image, img2img_mode, embeddings_mode, prompt_mode, load_noise.
  crunch; tally; tally; repeat apply conj; solve [reflexivity | exact I].
Qed.

Lemma finish_frame w l ctx out output g :
  forallb frame_event (trace_of (finish w l ctx out output g)) = true.
Proof.
  destruct output; [rewrite finish_generated | rewrite finish_failed];
    unfold generated_report; cbn [trace_of fst];
    destruct (verbose l); try destruct (line_open g);
    try destruct (w_image_save _ _ _ =? 0); reflexivity.
Qed.

Lemma frame_of_startup t : forallb startup_event t = true -> forallb frame_event t = true.
Proof.
  induction t as [|e t IH]; [reflexivity|]. cbn [forallb]. intros H.
  apply andb_prop in H as [He Ht]. rewrite (IH Ht), andb_true_r.
  destruct e; try discriminate He; reflexivity.
Qed.

Lemma frame_of_stderr t : forallb is_stderr t = true -> forallb frame_event t = true.
Proof.
  induction t as [|e t IH]; [reflexivity|]. cbn [forallb]. intros H.
  apply andb_prop in H as [He Ht]. rewrite (IH Ht), andb_true_r.
  destruct e; try discriminate He; reflexivity.
Qed.

(** The trace of a run is a frame around the trace of at most one
    dispatch. *)
Lemma run_frame w prog opts :
  (forallb frame_event (trace (run w prog opts)) = true) \/
  (exists l ctx g before after,
      trace (run w prog opts) = before ++ trace_of (generate_image w l ctx g) ++ after /\
      forallb frame_event before = true /\ forallb frame_event after = true).
Proof.
  rewrite run_eq, main_eq. cbn zeta.
  destruct (parse_options_inv w prog opts initial_locals initial_globals)
    as (t & r & E & Ht & _).
  rewrite E. cbn [trace_of result_of fst snd].
  destruct r as [l|c]; [|left; exact (frame_of_stderr _ Ht)].
  pose proof (startup_quiet w prog l initial_globals) as Hq.
  destruct (startup w prog l initial_globals) as [[t1 g1] [sc|c]];
    cbn [trace_of globals_of result_of fst snd run_of trace] in *;
    [|left; exact (frame_of_startup _ Hq)].
  right. rewrite generate_and_save_eq. cbn zeta.
  exists l, (snd sc), (seeded g1 (resolved_seed w l)).
  destruct (result_of (generate_image _ _ _ _)) as [output|c]; cbn [trace_of fst].
  - eexists (t1 ++ [_; _]), _. split.
    + rewrite <- app_assoc. cbn [app]. reflexivity.
    + split; [|apply finish_frame].
      rewrite forallb_app, (frame_of_startup _ Hq). reflexivity.
  - exists (t1 ++ [Call_flux_set_seed (resolved_seed w l);
                  Stderr (sprintf "Seed: %lld\n" [Int (resolved_seed w l)])]), [].
    split.
    + rewrite <- app_assoc, app_nil_r. reflexivity.
    + split; [|reflexivity].
      rewrite forallb_app, (frame_of_startup _ Hq). reflexivity.
Qed.

(** Two tallies that agree on every dispatch and ignore the frame agree on
    every run. *)
Lemma run_balance w prog opts (p q : event -> bool) :
  (forall e, frame_event e = true -> p e = false /\ q e = false) ->
  (forall l ctx g, count p (trace_of (generate_image w l ctx g))
                   = count q (trace_of (generate_image w l ctx g))) ->
  count p (trace (run w prog opts)) = count q (trace (run w prog opts)).
Proof.
  intros Hf Hg.
  assert (Z0 : forall t, forallb frame_event t = true -> count p t = O /\ count q t = O).
  { intros t Ht. split; (apply (count_quiet frame_event); [|exact Ht]); intros e He;
      apply (Hf e He). }
  destruct (run_frame w prog opts) as [H | (l & ctx & g & b & a & -> & Hb & Ha)].
  - destruct (Z0 _ H) as [-> ->]. reflexivity.
  - rewrite !count_app, Hg.
    destruct (Z0 _ Hb) as [-> ->], (Z0 _ Ha) as [-> ->]. reflexivity.
Qed.

(** X8 — no run leaks a buffer or a stream: on every path, the failing
    ones included, each [malloc] ([text_emb], [noise]) is matched by one
    [free] of the same buffer and each successful [fopen] by one
    [fclose]. *)
Theorem buffers_and_streams_released w prog opts :
  let t := trace (run w prog opts) in
  count (is_malloc_of "text_emb") t = count (is_free_of "text_emb") t /\
  count (is_malloc_of "noise") t = count (is_free_of "noise") t /\
  count is_malloc t = count is_free t /\
  count (file_opened w) t = count is_fclose t.
Proof.
  cbn zeta.
  repeat apply conj; apply run_balance;
    try (intros [] H; try discriminate H; split; reflexivity);
    intros l ctx g; apply (generate_image_resources w l ctx g).
Qed.

(* ====================================================================== *)
(** * The model context and the images, over the whole run *)

Lemma count_usage p prog :
  (forall e, is_stderr e = true -> p e = false) -> count p (usage_trace prog) = O.
Proof. intros H. apply (count_quiet is_stderr); [exact H | apply usage_trace_stderr]. Qed.

(** Start-up loads the model at most once, obtains a context exactly when
    it succeeds, and returns 1 when it does not. *)
Lemma startup_model w prog l g :
  let x := startup w prog l g in
  count (model_loaded w) (trace_of x)
  = match result_of x with Next _ => 1%nat | Return _ => O end /\
  (count is_load_dir (trace_of x) <= 1)%nat /\
  match result_of x with Return c => c = 1 | Next _ => True end.
Proof.
  unfold startup, validate_required, validate_params, print_settings, load_model.
  crunch; tally;
    rewrite ?(count_usage is_load_dir), ?(count_usage (model_loaded w))
      by (intros [] ?; try discriminate; reflexivity);
    unfold count; cbn [is_null negb filter List.length is_load_dir Nat.add];
    repeat apply conj; solve [reflexivity | exact I | lia].
Qed.

Lemma parse_options_status w prog opts l0 g c :
  result_of (parse_options w prog opts l0 g) = Return c -> c = 0 \/ c = 1.
Proof.
  revert l0. induction opts as [|o opts IH]; intros l0; [discriminate|].
  destruct o; cbn [parse_options]; try exact (IH _);
    unfold bind; rewrite ?print_usage_eq, ?print_version_eq;
    cbn [result_of snd return_]; intros H; inversion H; auto.
Qed.

(** On success start-up has loaded the model once, from the directory of
    [-d], and holds the context [flux_load_dir] returned. *)
Lemma startup_loads w prog l g t1 g1 out ctx :
  startup w prog l g = (t1, g1, Next (out, ctx)) ->
  exists dir,
    filter is_load_dir t1 = [Call_flux_load_dir dir] /\ w_load_dir w dir = Some ctx.
Proof.
  unfold startup, validate_required, validate_params, print_settings, load_model.
  crunch; intros H; try discriminate H; inversion H; subst;
    eexists; (split; [reflexivity | assumption]).
Qed.

Lemma last_app_cons {A} (t1 : list A) e t2 d :
  List.last (t1 ++ e :: t2) d = List.last (e :: t2) d.
Proof.
  induction t1 as [|a t1 IH]; [reflexivity|]. rewrite <- IH.
  destruct t1; reflexivity.
Qed.

Lemma last_app_counted {A} (p : A -> bool) (t1 t2 : list A) d :
  List.length (filter p t2) = 1%nat -> List.last (t1 ++ t2) d = List.last t2 d.
Proof.
  destruct t2 as [|e t2]; [discriminate|]. intros _. apply last_app_cons.
Qed.

Lemma string_app_nil_r s : (s ++ EmptyString)%string = s.
Proof. induction s as [|a s IH]; [reflexivity|]. cbn. now rewrite IH. Qed.

Lemma filter_quiet (q p : event -> bool) t :
  (forall e, q e = true -> p e = false) -> forallb q t = true -> filter p t = [].
Proof.
  intros Hq Ht. apply length_zero_iff_nil. exact (count_quiet q p t Hq Ht).
Qed.

(** Finishing frees the model context once, and last; it saves and frees
    the generated image when there is one; it returns 0 exactly when the
    image was saved, and only then, and only when not verbose, writes the
    output path on standard output. *)
Lemma finish_outcome w l ctx out output g :
  let y := finish w l ctx out output g in
  count is_flux_free (trace_of y) = 1%nat /\
  List.last (trace_of y) Flush_stderr = Call_flux_free ctx /\
  count (model_loaded w) (trace_of y) = O /\
  count (image_loaded w) (trace_of y) = O /\
  filter is_image_save (trace_of y)
  = match output with Some img => [Call_flux_image_save img out] | None => [] end /\
  filter is_image_free (trace_of y)
  = match output with Some img => [Call_flux_image_free img] | None => [] end /\
  result_of y
  = Return match output with
           | Some img => if w_image_save w img out =? 0 then 0 else 1
           | None => 1
           end /\
  stdout_text (trace_of y)
  = match output with
    | Some img =>
        if (w_image_save w img out =? 0) && negb (verbose l)
        then sprintf "%s\n" [Str (Some out)] else EmptyString
    | None => EmptyString
    end.
Proof.
  cbn zeta.
  destruct output; [rewrite finish_generated | rewrite finish_failed];
    unfold generated_report, count; cbn [trace_of result_of fst snd];
    destruct (verbose l); try destruct (line_open g);
    try destruct (w_image_save _ _ _ =? 0);
    cbn [app filter List.length is_flux_free is_image_save is_image_free List.last
         model_loaded image_loaded stdout_text andb negb];
    rewrite ?string_app_nil_r; repeat apply conj; reflexivity.
Qed.

(** The image the dispatch hands on, if any. *)
Lemma generate_image_output w l ctx g s :
  let x := generate_image w l ctx (seeded g s) in
  match expected_call w l ctx with
  | Some c => result_of x = Next (snd (w_engine w (Some s) c))
  | None => result_of x = Return 1
  end.
Proof.
  cbn zeta. pose proof (generate_image_spec w l ctx (seeded g s)) as G.
  cbn zeta in G. destruct G as (_ & _ & G).
  destruct (expected_call w l ctx); destruct G as (G & _); exact G.
Qed.

(** From the seed to the exit: the model context is freed once, and last;
    no model is loaded; the generated image is saved once under the output
    path and there is none otherwise; every image is freed once. *)
Lemma generate_and_save_outcome w l out ctx g :
  let y := generate_and_save w l out ctx g in
  let output := match expected_call w l ctx with
                | Some c => snd (w_engine w (Some (resolved_seed w l)) c)
                | None => None
                end in
  count is_flux_free (trace_of y) = 1%nat /\
  List.last (trace_of y) Flush_stderr = Call_flux_free ctx /\
  count (model_loaded w) (trace_of y) = O /\
  count is_load_dir (trace_of y) = O /\
  filter is_image_save (trace_of y)
  = match output with Some img => [Call_flux_image_save img out] | None => [] end /\
  (count (image_loaded w) (trace_of y) + count is_image_save (trace_of y))%nat
  = count is_image_free (trace_of y) /\
  result_of y
  = Return match output with
           | Some img => if w_image_save w img out =? 0 then 0 else 1
           | None => 1
           end /\
  stdout_text (trace_of y)
  = match output with
    | Some img =>
        if (w_image_save w img out =? 0) && negb (verbose l)
        then sprintf "%s\n" [Str (Some out)] else EmptyString
    | None => EmptyString
    end.
Proof.
  cbn zeta. rewrite generate_and_save_eq. cbn zeta.
  pose proof (generate_image_output w l ctx g (resolved_seed w l)) as Ho.
  pose proof (generate_image_resources w l ctx (seeded g (resolved_seed w l))) as R.
  pose proof (generate_image_spec w l ctx (seeded g (resolved_seed w l))) as G.
  cbn zeta in Ho, R, G.
  destruct R as (Rout & Rfree & _ & _ & _ & _ & Rimg & Rload & Rlast).
  destruct G as (_ & Gd & _).
  pose proof (filter_quiet dispatch_event is_image_save _
                ltac:(intros [] H; try discriminate H; reflexivity) Gd) as Gsave.
  pose proof (count_quiet dispatch_event is_load_dir _
                ltac:(intros [] H; try discriminate H; reflexivity) Gd) as Gdir.
  pose proof (count_quiet dispatch_event is_image_save _
                ltac:(intros [] H; try discriminate H; reflexivity) Gd) as Gsaves.
  set (x := generate_image w l ctx (seeded g (resolved_seed w l))) in *.
  destruct (expected_call w l ctx) as [c|]; rewrite Ho in *.
  - pose proof (finish_outcome w l ctx out (snd (w_engine w (Some (resolved_seed w l)) c))
                  (globals_of x)) as F.
    pose proof (finish_quiet w l ctx out (snd (w_engine w (Some (resolved_seed w l)) c))
                  (globals_of x)) as Q.
    cbn zeta in F, Q.
    destruct F as (Ffree & Flast & Fload & Fimgs & Fsave & Fimg & Fres & Fout).
    destruct Q as (_ & _ & Qdir & _).
    set (y := finish w l ctx out _ _) in *.
    cbn [trace_of result_of fst snd].
    change (fst (fst x)) with (trace_of x). change (fst (fst y)) with (trace_of y).
    change (snd y) with (result_of y).
    rewrite !app_comm_cons, (last_app_counted is_flux_free _ _ _ Ffree).
    rewrite !stdout_text_app, !filter_app, !count_app, !count_cons.
    unfold count in *.
    cbn [is_flux_free model_loaded is_load_dir is_image_save image_loaded is_image_free
         filter stdout_text app List.length Nat.add].
    rewrite ?Rout, ?Rfree, ?Rload, ?Gdir, ?Gsave, ?Ffree, ?Fload, ?Fimgs, ?Qdir, ?Fsave,
      ?Fimg, ?Fout, ?Rimg.
    cbn [is_flux_free model_loaded is_load_dir is_image_save image_loaded is_image_free
         filter stdout_text app List.length Nat.add].
    repeat apply conj; try reflexivity; try assumption.
    destruct (snd (w_engine w (Some (resolved_seed w l)) c)); cbn [List.length]; lia.
  - cbn [trace_of result_of fst snd].
    change (fst (fst x)) with (trace_of x).
    assert (Hne : List.length (filter is_flux_free (trace_of x)) = 1%nat) by exact Rfree.
    rewrite (last_app_counted is_flux_free [_; _] _ _ Hne : List.last (_ :: _ :: _) _ = _).
    rewrite !count_cons. unfold count in *.
    cbn [is_flux_free model_loaded is_load_dir is_image_save image_loaded is_image_free
         filter stdout_text app List.length Nat.add].
    rewrite ?Rout, ?Rfree, ?Rload, ?Gdir, ?Gsave, ?Rimg.
    repeat apply conj; try reflexivity; try assumption.
    cbn [List.length]. lia.
Qed.

(** A run ends in the option loop (help, version, unrecognised option), in
    start-up, or gets to the mode dispatch. *)
Lemma run_cases w prog opts :
  let r := run w prog opts in
  (forallb is_stderr (trace r) = true /\ (exit_status r = 0 \/ exit_status r = 1)) \/
  (forallb startup_event (trace r) = true /\
   count (model_loaded w) (trace r) = O /\
   (count is_load_dir (trace r) <= 1)%nat /\ exit_status r = 1) \/
  (exists l t1 g1 out ctx, reaches_dispatch w prog opts l t1 g1 out ctx).
Proof.
  cbn zeta.
  destruct (parse_options_inv w prog opts initial_locals initial_globals)
    as (t & r & E & Ht & Hn).
  destruct r as [l|c].
  - rewrite (Hn l eq_refl) in E.
    pose proof (startup_quiet w prog l initial_globals) as Hq.
    pose proof (startup_model w prog l initial_globals) as Hm. cbn zeta in Hm.
    destruct (startup w prog l initial_globals) as [[t1 g1] [[out ctx]|c]] eqn:Es.
    + right. right. exists l, t1, g1, out, ctx. split; assumption.
    + right. left. rewrite (run_rejected _ _ _ _ _ _ _ E Es).
      cbn [trace exit_status trace_of result_of fst snd] in *.
      destruct Hm as (Hm & Hd & Hc). repeat apply conj; assumption.
  - left. pose proof (parse_options_status w prog opts initial_locals initial_globals c) as Hc.
    rewrite run_eq, main_eq. cbn zeta. rewrite E in *.
    cbn [trace exit_status run_of trace_of result_of status_of fst snd] in *.
    split; [exact Ht | exact (Hc eq_refl)].
Qed.

Lemma dispatched_run w prog opts l t1 g1 out ctx :
  reaches_dispatch w prog opts l t1 g1 out ctx ->
  let y := generate_and_save w l out ctx g1 in
  trace (run w prog opts) = t1 ++ trace_of y /\
  exit_status (run w prog opts) = status_of (result_of y) /\
  forallb startup_event t1 = true /\
  exists dir, filter is_load_dir t1 = [Call_flux_load_dir dir] /\ w_load_dir w dir = Some ctx.
Proof.
  intros [Hp Hs]. cbn zeta. rewrite (run_started _ _ _ _ _ _ _ _ Hp Hs).
  cbn [trace exit_status]. split; [reflexivity|]. split; [reflexivity|].
  split; [|exact (startup_loads _ _ _ _ _ _ _ _ Hs)].
  pose proof (startup_quiet w prog l initial_globals) as Hq. rewrite Hs in Hq. exact Hq.
Qed.

(** X9 — the model context.  Every run calls [flux_load_dir] at most once
    and [flux_free] exactly as often as that call returned a context; when
    it did, the context freed is the one loaded, and freeing it is the last
    thing the run does. *)
Theorem model_context_released w prog opts :
  let t := trace (run w prog opts) in
  count is_flux_free t = count (model_loaded w) t /\
  (count is_load_dir t <= 1)%nat /\
  (count is_flux_free t = O \/
   exists dir ctx,
     filter is_load_dir t = [Call_flux_load_dir dir] /\
     w_load_dir w dir = Some ctx /\
     List.last t Flush_stderr = Call_flux_free ctx).
Proof.
  cbn zeta.
  destruct (run_cases w prog opts) as [[Ht _] | [(Ht & Hm & Hd & _) | D]].
  - assert (Z0 : forall p, (forall e, is_stderr e = true -> p e = false) ->
                           count p (trace (run w prog opts)) = O).
    { intros p Hp. exact (count_quiet is_stderr p _ Hp Ht). }
    rewrite !Z0 by (intros [] H; try discriminate H; reflexivity).
    split; [reflexivity|]. split; [lia | left; reflexivity].
  - rewrite Hm.
    assert (Hf : count is_flux_free (trace (run w prog opts)) = O).
    { apply (count_quiet startup_event); [|exact Ht].
      intros [] H; try discriminate H; reflexivity. }
    rewrite Hf. split; [reflexivity|]. split; [exact Hd | left; reflexivity].
  - destruct D as (l & t1 & g1 & out & ctx & D).
    destruct (dispatched_run _ _ _ _ _ _ _ _ D) as (Et & _ & Hq & dir & Hdir & Hctx).
    destruct (generate_and_save_outcome w l out ctx g1)
      as (Yfree & Ylast & Yload & Ydir & _).
    rewrite Et, !count_app, Yfree, Yload, Ydir.
    rewrite (count_quiet startup_event is_flux_free t1) by
        (try exact Hq; intros [] H; try discriminate H; reflexivity).
    assert (Hloaded : count (model_loaded w) t1 = 1%nat).
    { destruct D as [_ Hs]. pose proof (startup_model w prog l initial_globals) as Hm.
      cbn zeta in Hm. rewrite Hs in Hm. exact (proj1 Hm). }
    assert (Hone : count is_load_dir t1 = 1%nat).
    { unfold count. rewrite Hdir. reflexivity. }
    rewrite Hloaded, Hone. split; [reflexivity|]. split; [lia|].
    right. exists dir, ctx. split; [|split; [exact Hctx|]].
    + rewrite filter_app, Hdir.
      apply length_zero_iff_nil in Ydir. rewrite Ydir. reflexivity.
    + rewrite (last_app_counted is_flux_free _ _ _ Yfree). exact Ylast.
Qed.

(* ====================================================================== *)
(** * Images, exit status, standard output *)

Lemma filter_reporter p evs g :
  (forall e, is_display e = true -> p e = false) ->
  filter p (reporter_output evs g) = [].
Proof. intros H. apply (filter_quiet is_display); [exact H | apply reporter_output_display]. Qed.

(** The dispatch frees the input image of image-to-image mode, once it
    has loaded, and no other image. *)
Lemma generate_image_frees w l ctx g :
  filter is_image_free (trace_of (generate_image w l ctx g)) = frees_of (input_image w l).
Proof.
  unfold generate_image, img2img_mode, embeddings_mode, prompt_mode, load_noise,
    input_image, frees_of.
  crunch; cbn [trace_of fst snd];
    rewrite ?filter_app; cbn [filter is_image_free app];
    rewrite ?filter_app; cbn [filter is_image_free app];
    rewrite ?(filter_reporter is_image_free)
      by (intros [] ?; try discriminate; reflexivity);
    world_facts; reflexivity.
Qed.

Lemma generate_and_save_frees w l out ctx g :
  filter is_image_free (trace_of (generate_and_save w l out ctx g))
  = frees_of (input_image w l) ++ frees_of (generated_image w l ctx).
Proof.
  rewrite generate_and_save_eq. cbn zeta.
  pose proof (generate_image_output w l ctx g (resolved_seed w l)) as Ho.
  pose proof (generate_image_frees w l ctx (seeded g (resolved_seed w l))) as Hf.
  cbn zeta in Ho. unfold generated_image.
  set (x := generate_image w l ctx (seeded g (resolved_seed w l))) in *.
  destruct (expected_call w l ctx) as [c|]; rewrite Ho.
  - destruct (finish_outcome w l ctx out (snd (w_engine w (Some (resolved_seed w l)) c))
                (globals_of x)) as (_ & _ & _ & _ & _ & Fimg & _).
    cbn [trace_of fst snd] in *. cbn [filter is_image_free].
    rewrite filter_app, Hf, Fimg. reflexivity.
  - cbn [trace_of fst snd] in *. cbn [filter is_image_free frees_of].
    rewrite Hf, app_nil_r. reflexivity.
Qed.

(** X10 — images.  In a run that gets to the mode dispatch the images
    freed are, in this order, the input image of image-to-image mode when
    it loaded and the generated image when there is one, each once; the
    input image is freed whether or not the generation succeeds; the
    generated image is what is saved, once, under the output path. *)
Theorem images_released w prog opts l t1 g1 out ctx :
  reaches_dispatch w prog opts l t1 g1 out ctx ->
  let t := trace (run w prog opts) in
  filter is_image_free t = frees_of (input_image w l) ++ frees_of (generated_image w l ctx) /\
  count (image_loaded w) t = List.length (frees_of (input_image w l)) /\
  filter is_image_save t
  = match generated_image w l ctx with
    | Some img => [Call_flux_image_save img out]
    | None => []
    end.
Proof.
  intros D. cbn zeta.
  destruct (dispatched_run _ _ _ _ _ _ _ _ D) as (Et & _ & Hq & _).
  destruct (generate_and_save_outcome w l out ctx g1)
    as (_ & _ & _ & _ & Ysave & Yimg & _).
  pose proof (generate_and_save_frees w l out ctx g1) as Yfree.
  rewrite Et, !filter_app, count_app.
  rewrite (filter_quiet startup_event is_image_free t1),
    (filter_quiet startup_event is_image_save t1),
    (count_quiet startup_event (image_loaded w) t1)
    by (try exact Hq; intros [] H; try discriminate H; reflexivity).
  cbn [app Nat.add]. split; [exact Yfree|]. split; [|exact Ysave].
  unfold count in *. rewrite Yfree, Ysave, length_app in Yimg.
  unfold generated_image in Yimg.
  destruct (match expected_call w l ctx with Some c => _ | None => None end);
    cbn [frees_of List.length] in Yimg; lia.
Qed.

(** Witness for X10: image-to-image mode with the input image and the
    engine of the sample world. *)
Lemma images_released_witness :
  let t := trace (run sample_world "flux" img2img_opts) in
  filter is_image_free t
  = [Call_flux_image_free sample_input; Call_flux_image_free sample_output].
Proof.
  intros t.
  exact (proj1 (images_released sample_world "flux" img2img_opts
                  _ _ _ _ _ (conj eq_refl eq_refl))).
Defined.

(** X11 — success and nothing else exits with 0.  A run that gets to the
    mode dispatch returns 0 when it generated an image and saved it, and 1
    otherwise; it writes on standard output only when it succeeded and was
    not verbose, and then exactly the output path and a line break. *)
Theorem run_outcome w prog opts l t1 g1 out ctx :
  reaches_dispatch w prog opts l t1 g1 out ctx ->
  let r := run w prog opts in
  exit_status r = (if run_succeeds w l ctx out then 0 else 1) /\
  stdout_text (trace r)
  = (if run_succeeds w l ctx out && negb (verbose l)
     then sprintf "%s\n" [Str (Some out)] else EmptyString).
Proof.
  intros D. cbn zeta.
  destruct (dispatched_run _ _ _ _ _ _ _ _ D) as (Et & Ex & Hq & _).
  destruct (generate_and_save_outcome w l out ctx g1)
    as (_ & _ & _ & _ & _ & _ & Yres & Yout).
  rewrite Et, Ex, Yres, stdout_text_app, (stdout_text_startup _ Hq), Yout.
  unfold run_succeeds, generated_image. cbn [status_of String.append].
  destruct (match expected_call w l ctx with Some c => _ | None => None end) as [img|];
    [|split; reflexivity].
  destruct (w_image_save w img out =? 0); split; reflexivity.
Qed.

(** Witness for X11: the sample world, not verbose. *)
Lemma run_outcome_witness :
  let r := run sample_world "flux" [opt_d "model"; opt_p "a cat"; opt_o "cat.png"] in
  exit_status r = 0 /\ stdout_text (trace r) = String.append "cat.png" (String newline EmptyString).
Proof.
  intros r.
  exact (run_outcome sample_world "flux" [opt_d "model"; opt_p "a cat"; opt_o "cat.png"]
           _ _ _ _ _ (conj eq_refl eq_refl)).
Defined.

(** X12 — every run returns 0 or 1, and a run that returns 1 has written
    nothing on standard output: help, version, usage and every error go to
    standard error. *)
Theorem exit_status_and_stdout w prog opts :
  let r := run w prog opts in
  (exit_status r = 0 \/ exit_status r = 1) /\
  (stdout_text (trace r) = EmptyString \/
   exit_status r = 0 /\
   exists img out,
     filter is_image_save (trace r) = [Call_flux_image_save img out] /\
     stdout_text (trace r) = sprintf "%s\n" [Str (Some out)]).
Proof.
  cbn zeta.
  destruct (run_cases w prog opts) as [[Ht Hc] | [(Ht & _ & _ & Hc) | D]].
  - split; [exact Hc | left; exact (stdout_text_stderr _ Ht)].
  - split; [right; exact Hc | left; exact (stdout_text_startup _ Ht)].
  - destruct D as (l & t1 & g1 & out & ctx & D).
    destruct (dispatched_run _ _ _ _ _ _ _ _ D) as (Et & Ex & Hq & _).
    destruct (generate_and_save_outcome w l out ctx g1)
      as (_ & _ & _ & _ & Ysave & _ & Yres & Yout).
    rewrite Et, Ex, Yres, stdout_text_app, (stdout_text_startup _ Hq), Yout, filter_app.
    rewrite (filter_quiet startup_event is_image_save t1)
      by (try exact Hq; intros [] H; try discriminate H; reflexivity).
    rewrite Ysave. cbn [status_of String.append app].
    destruct (match expected_call w l ctx with Some c => _ | None => None end) as [img|];
      [|split; [right | left]; reflexivity].
    destruct (w_image_save w img out =? 0); [|split; [right | left]; reflexivity].
    split; [left; reflexivity|].
    destruct (verbose l); [left; reflexivity|].
    right. split; [reflexivity|]. exists img, out. split; reflexivity.
Qed.

(* ====================================================================== *)
(** * Runs without [-v] *)

Lemma startup_silent w prog l g t1 g1 out ctx :
  verbose l = false ->
  startup w prog l g = (t1, g1, Next (out, ctx)) ->
  filter is_stderr t1 = [] /\ g1 = g.
Proof.
  intros Hv. unfold startup, validate_required, validate_params, print_settings, load_model.
  rewrite Hv.
  crunch; intros H; try discriminate H; inversion H; subst; split; reflexivity.
Qed.

(** Without [-v] and with no callback registered, the dispatch writes on
    standard error only the report of the failure it returns with, and
    leaves the process-wide variables alone. *)
Lemma generate_image_silent w l ctx g :
  verbose l = false -> disarmed g ->
  let x := generate_image w l ctx g in
  globals_of x = g /\
  match result_of x with
  | Next _ => filter is_stderr (trace_of x) = []
  | Return _ =>
      exists msg, filter is_stderr (trace_of x) = [Stderr msg] /\
                  is_error_report (Stderr msg) = true
  end.
Proof.
  intros Hv Hd.
  unfold generate_image, img2img_mode, embeddings_mode, prompt_mode, load_noise.
  rewrite Hv.
  crunch; cbn [trace_of globals_of result_of fst snd];
    rewrite ?(proj1 (reporter_unarmed _ _ Hd)), ?(proj2 (reporter_unarmed _ _ Hd));
    cbn [app filter is_stderr];
    (split; [reflexivity|]);
    first [reflexivity | eexists; split; [reflexivity|]; eval_reports; reflexivity].
Qed.

(** X13 — a run without [-v] that gets to the mode dispatch writes on
    standard error the seed line and, when it fails, the one report of
    that failure; nothing else, whatever progress the engine reports.  No
    callback is ever registered, and of the process-wide variables only
    the engine's seed changes. *)
Theorem quiet_run w prog opts l t1 g1 out ctx :
  reaches_dispatch w prog opts l t1 g1 out ctx ->
  verbose l = false ->
  let r := run w prog opts in
  final r = seeded initial_globals (resolved_seed w l) /\
  exists errs,
    filter is_stderr (trace r)
    = Stderr (sprintf "Seed: %lld\n" [Int (resolved_seed w l)]) :: errs /\
    List.length errs = (if run_succeeds w l ctx out then 0 else 1)%nat /\
    forallb is_error_report errs = true.
Proof.
  intros [Hp Hs] Hv. cbn zeta.
  rewrite (run_started _ _ _ _ _ _ _ _ Hp Hs). cbn [trace final].
  destruct (startup_silent _ _ _ _ _ _ _ _ Hv Hs) as [Ht1 ->].
  rewrite generate_and_save_eq. cbn zeta.
  pose proof (generate_image_output w l ctx initial_globals (resolved_seed w l)) as Ho.
  assert (Hd : disarmed (seeded initial_globals (resolved_seed w l)))
    by (split; reflexivity).
  destruct (generate_image_silent w l ctx _ Hv Hd) as [Hg Hx].
  cbn zeta in Ho. unfold run_succeeds, generated_image.
  set (x := generate_image w l ctx (seeded initial_globals (resolved_seed w l))) in *.
  destruct (expected_call w l ctx) as [c|]; rewrite Ho in *.
  - cbn [globals_of trace_of fst snd]. rewrite finish_globals, Hv. split; [exact Hg|].
    rewrite filter_app, Ht1. cbn [app filter is_stderr]. rewrite filter_app, Hx.
    cbn [app]. change (snd (fst x)) with (globals_of x).
    destruct (snd (w_engine w (Some (resolved_seed w l)) c)) as [img|].
    + rewrite finish_generated, Hv. cbn [fst app filter is_stderr].
      destruct (w_image_save w img out =? 0); cbn [filter is_stderr];
        eexists; (split; [reflexivity|]); split; reflexivity.
    + rewrite finish_failed, Hv. cbn [fst app filter is_stderr].
      eexists; (split; [reflexivity|]); split; reflexivity.
  - cbn [globals_of trace_of fst snd]. split; [exact Hg|].
    rewrite filter_app, Ht1. cbn [app filter is_stderr].
    destruct Hx as (msg & -> & Hmsg).
    eexists; (split; [reflexivity|]); split; [reflexivity|].
    cbn [forallb]. rewrite Hmsg. reflexivity.
Qed.

(** Witness for X13: a quiet run in the sample world, whose engine reports
    two steps. *)
Lemma quiet_run_witness :
  let r := run sample_world "flux" [opt_d "model"; opt_p "a cat"; opt_o "cat.png"] in
  final r = seeded initial_globals 1700000000 /\
  exists errs,
    filter is_stderr (trace r) = Stderr (sprintf "Seed: %lld\n" [Int 1700000000]) :: errs /\
    List.length errs = O /\ forallb is_error_report errs = true.
Proof.
  intros r.
  exact (quiet_run sample_world "flux" [opt_d "model"; opt_p "a cat"; opt_o "cat.png"]
           _ _ _ _ _ (conj eq_refl eq_refl) eq_refl).
Defined.

(* ====================================================================== *)
(** * The model load *)

(** The model load in closed form. *)
Lemma load_model_eq w l dir g :
  load_model w l dir g
  = ((if verbose l then [Stderr (sprintf "Loading model...\n" [])] else [])
       ++ Call_flux_load_dir dir
       :: match w_load_dir w dir with
          | Some ctx =>
              if verbose l
              then [Stderr (sprintf "Model loaded in %.2f seconds\n"
                                    [Dbl (seconds w Load_start Load_end)]);
                    Stderr (sprintf "Model info: %s\n\n"
                                    [Str (Some (flux_model_info ctx))])]
              else []
          | None => [Stderr (sprintf "Error: Failed to load model: %s\n"
                                     [Str (Some (w_get_error w))])]
          end,
     match w_load_dir w dir with
     | Some _ => if verbose l then arm g else g
     | None => g
     end,
     match w_load_dir w dir with
     | Some ctx => Next ctx
     | None => Return 1
     end).
Proof.
  unfold load_model.
  destruct (verbose l); destruct (w_load_dir w dir); exec; known; exec; reflexivity.
Qed.

(** X14 — with the required arguments present and the parameters in
    range, the model load decides: when [flux_load_dir] returns a context
    the run gets to the mode dispatch with it; when it returns NULL the run
    reports that, once, after the verbose banner if any, and returns 1
    having set no seed, registered no callback and freed nothing. *)
Theorem model_load_decides w prog opts l dir out :
  parse_options w prog opts initial_locals initial_globals
  = ([], initial_globals, Next l) ->
  model_dir l = Some dir -> output_path l = Some out ->
  is_null (prompt l) && is_null (embeddings_path l) = false ->
  params_in_range (params l) ->
  match w_load_dir w dir with
  | Some ctx => exists t1 g1, reaches_dispatch w prog opts l t1 g1 out ctx
  | None =>
      run w prog opts
      = {| trace :=
             trace_of (print_settings l dir out initial_globals)
               ++ (if verbose l then [Stderr (sprintf "Loading model...\n" [])] else [])
               ++ [Call_flux_load_dir dir;
                   Stderr (sprintf "Error: Failed to load model: %s\n"
                                   [Str (Some (w_get_error w))])];
           final := initial_globals;
           exit_status := 1 |}
  end.
Proof.
  intros Hp Hdir Hout Hpe Hr.
  destruct (validate_params_spec (params l) initial_globals) as (Hok & _).
  specialize (Hok Hr).
  assert (Hs : startup w prog l initial_globals
               = (let m := load_model w l dir initial_globals in
                  (trace_of (print_settings l dir out initial_globals) ++ trace_of m,
                   globals_of m,
                   match result_of m with
                   | Next ctx => Next (out, ctx)
                   | Return c => Return c
                   end))).
  { unfold startup, validate_required. rewrite Hdir, Hout, Hpe.
    unfold bind at 1 2. cbn [when ret]. unfold bind at 1. rewrite Hok.
    cbn [fst snd app]. unfold load_model, print_settings.
    destruct (verbose l); destruct (w_load_dir w dir); destruct (input_path l);
      exec; known; exec; reflexivity. }
  cbn zeta in Hs. rewrite load_model_eq in Hs.
  cbn [trace_of globals_of result_of fst snd] in Hs.
  destruct (w_load_dir w dir) as [ctx|].
  - eexists _, _. split; [exact Hp | exact Hs].
  - rewrite (run_rejected _ _ _ _ _ _ _ Hp Hs). reflexivity.
Qed.

(** Witness for X14: no model can be loaded. *)
Lemma model_load_decides_witness :
  let w := with_load_dir sample_world (fun _ => None) in
  run w "flux" [opt_d "model"; opt_p "a cat"; opt_o "cat.png"]
  = {| trace := [Call_flux_load_dir "model";
                 Stderr (sprintf "Error: Failed to load model: %s\n"
                                 [Str (Some "out of memory")])];
       final := initial_globals;
       exit_status := 1 |}.
Proof.
  intros w.
  refine (model_load_decides w "flux" [opt_d "model"; opt_p "a cat"; opt_o "cat.png"]
            _ "model" "cat.png" eq_refl eq_refl eq_refl eq_refl _).
  unfold params_in_range. cbn. repeat split; discriminate.
Defined.

(* ====================================================================== *)
(** * The noise file *)

Lemma noise_size_of_floor size :
  0 <= size <= LONG_MAX -> size / 4 <= INT_MAX -> noise_size_of size = size / 4.
Proof.
  intros Hs Hq. unfold noise_size_of.
  rewrite (to_size_t_id size) by exact Hs.
  change sizeof_float with 4.
  apply to_int_id. unfold in_int, INT_MIN.
  pose proof (Z.div_pos size 4). lia.
Qed.

(** X15 — the noise count.  In external-embeddings mode with a noise file
    of at most [4 * INT_MAX + 3] bytes, every generation call the run makes
    is to the entry point with noise and passes [floor (bytes / 4)] floats,
    trailing bytes ignored; an empty noise file still selects that entry
    point, with a count of 0.  The call is made when both files are read in
    full. *)
Theorem noise_size_passed w prog opts l t1 g1 out ctx ep np nf :
  reaches_dispatch w prog opts l t1 g1 out ctx ->
  input_path l = None -> embeddings_path l = Some ep -> noise_path l = Some np ->
  w_fopen w np = Some nf ->
  0 <= file_size nf <= LONG_MAX ->
  file_size nf / 4 <= INT_MAX ->
  let calls := generation_calls (trace (run w prog opts)) in
  (forall c, In c calls ->
             entry_of c = EP_with_embeddings_and_noise /\
             noise_size_arg c = Some (file_size nf / 4)) /\
  (inputs_load w l = true -> exists c, calls = [c]).
Proof.
  intros Hd Hi He Hn Ho Hsize Hq calls. subst calls.
  rewrite (dispatched_calls _ _ _ _ _ _ _ _ Hd).
  split.
  - unfold expected_call. rewrite Hi, He, Hn.
    destruct (w_fopen w ep) as [f|]; [|intros c []]. cbn zeta.
    destruct (file_read f =? _); [|intros c []].
    rewrite Ho. destruct (file_read nf =? _); [|intros c []].
    intros c [<- | []]. cbn [entry_of noise_size_arg].
    rewrite (noise_size_of_floor _ Hsize Hq). split; reflexivity.
  - intros Hl. destruct (inputs_load_call w l ctx Hl) as (c & ->).
    exists c. reflexivity.
Qed.

(** Witness for X15: a noise file of 92165 bytes, one byte more than
    23041 floats. *)
Lemma noise_size_passed_witness :
  let calls := generation_calls
                 (trace (run sample_world "flux"
                             [opt_d "model"; opt_e "emb.bin"; opt_n "noise.bin";
                              opt_o "cat.png"])) in
  (forall c, In c calls ->
             entry_of c = EP_with_embeddings_and_noise /\
             noise_size_arg c = Some 23041) /\
  exists c, calls = [c].
Proof.
  intros calls.
  destruct (noise_size_passed sample_world "flux"
              [opt_d "model"; opt_e "emb.bin"; opt_n "noise.bin"; opt_o "cat.png"]
              _ _ _ _ _ "emb.bin" "noise.bin" _
              (conj eq_refl eq_refl) eq_refl eq_refl eq_refl eq_refl)
    as [H1 H2].
  - cbn. split; discriminate.
  - cbn. discriminate.
  - split; [exact H1 | exact (H2 eq_refl)].
Defined.

(* ====================================================================== *)
(** * The model directory *)

(** X16 — the model directory is checked first.  Without [-d] the run
    writes that one error and the usage on standard error and returns 1,
    whatever else is missing or out of range; no model is loaded and the
    process-wide variables are untouched. *)
Theorem model_dir_required w prog opts l :
  parse_options w prog opts initial_locals initial_globals
  = ([], initial_globals, Next l) ->
  model_dir l = None ->
  run w prog opts
  = {| trace := Stderr (sprintf "Error: Model directory (-d) is required\n\n" [])
                  :: usage_trace prog;
       final := initial_globals;
       exit_status := 1 |}.
Proof.
  intros Hp Hdir. apply (run_rejected _ _ _ _ _ _ _ Hp).
  unfold startup, validate_required. rewrite Hdir. exec. known. exec. reflexivity.
Qed.

(** Witness for X16: a prompt, an output path and a width far out of
    range, but no model directory. *)
Lemma model_dir_required_witness :
  exit_status (run sample_world "flux" [opt_p "a cat"; opt_o "cat.png"; opt_W "7"]) = 1.
Proof.
  rewrite (model_dir_required sample_world "flux"
             [opt_p "a cat"; opt_o "cat.png"; opt_W "7"] _ eq_refl eq_refl).
  reflexivity.
Defined.
